(** * fmrest.server_async: the retry and relogin layer of [ServerAsync]

    A shallow embedding of [src/fmrest/server_async.py].  Coroutines are
    state transformers over a [world]; calling an [async def] yields a
    coroutine object without running it, and [await] runs it. *)

From Stdlib Require Import ZArith NArith List String Bool Lia.
From Equations Require Import Equations.
Import ListNotations.

Local Open Scope Z_scope.
Local Open Scope string_scope.
Local Open Scope list_scope.

(** ** Exceptions *)

(** [json.decoder.JSONDecodeError] of the Python standard library: the
    message, the document being parsed and the position of the failure. *)
Record JSONDecodeError : Type := mkJSONDecodeError {
  msg : string;
  doc : string;
  pos : Z
}.

(** Modelled from the spec: [fmrest/exceptions.py] is not part of the
    sources.  Section 7 of the specification lists three error kinds: the
    remote application error ([FileMakerError], a code and a message), the
    malformed-response error ([BadJSON], built in [_call_filemaker_async]
    from the decode failure and the raw body) and the transport error. *)
Inductive exn : Type :=
| FileMakerError (error_code : Z) (error_message : string)
| BadJSON (original_exception : JSONDecodeError) (response_text : string)
| TransportError (detail : string).

(** [isinstance(e, FileMakerError)]: what [except FileMakerError] tests. *)
Definition is_FileMakerError (e : exn) : bool :=
  match e with
  | FileMakerError _ _ => true
  | _ => false
  end.

(** [str(e)]: the message the not-found set is matched against. *)
Definition str (e : exn) : string :=
  match e with
  | FileMakerError _ message => message
  | BadJSON ex _ => msg ex
  | TransportError detail => detail
  end.

(** ** The client instance and the world *)

(** A [datetime.timedelta] used as a delay: a duration in microseconds. *)
Definition timedelta : Type := N.

(** The attributes of the client that are configured once and only read
    during a call. *)
Record Server : Type := mkServer {
  url : string;
  verify_ssl : bool;
  retry_get_record_on_not_found : bool;
  retry_get_record_on_not_found_attempts : Z;
  retry_get_record_on_not_found_delay : timedelta
}.

(** What a call can change: the session token and the headers of the
    client, and the history of its effects (network round trips made,
    logins made, delays slept, oldest first). *)
Record world : Type := mkWorld {
  _token : option string;
  _headers : list (string * string);
  calls : nat;
  logins : nat;
  slept : list timedelta
}.

(** ** Coroutines *)

Inductive outcome (A : Type) : Type :=
| Returned (a : A)
| Raised (e : exn).
Arguments Returned {A} a.
Arguments Raised {A} e.

(** The body of an [async def]: run by [await], it ends by returning or
    raising, and leaves a new world either way. *)
Definition coroutine (A : Type) : Type := world -> outcome A * world.

(** [return a]. *)
Definition ret {A} (a : A) : coroutine A := fun w => (Returned a, w).

(** [raise e]. *)
Definition raise {A} (e : exn) : coroutine A := fun w => (Raised e, w).

(** [x = await c; k x]: an exception of [c] ends the whole body. *)
Definition bind {A B} (c : coroutine A) (k : A -> coroutine B) : coroutine B :=
  fun w =>
    match c w with
    | (Returned a, w1) => k a w1
    | (Raised e, w1) => (Raised e, w1)
    end.

Declare Scope coroutine_scope.
Delimit Scope coroutine_scope with coroutine.
Notation "x <- c ;; k" := (bind c (fun x => k))
  (at level 61, c at next level, right associativity) : coroutine_scope.

(** [time.sleep(d.total_seconds())]. *)
Definition time_sleep (d : timedelta) : world -> world :=
  fun w => mkWorld (_token w) (_headers w) (calls w) (logins w) (slept w ++ [d]).

(** One network round trip has been made. *)
Definition round_trip (w : world) : world :=
  mkWorld (_token w) (_headers w) (S (calls w)) (logins w) (slept w).

(** A wrapped operation seen from outside: every run makes one round trip,
    and the outcome of the round trip number [k] is [script k]. *)
Definition scripted {A} (script : nat -> outcome A) : coroutine A :=
  fun w => (script (calls w), round_trip w).

(** ** The not-found retry wrapper *)

(** What awaiting the wrapper gives back: an awaited result, a coroutine
    object that nobody awaited, or [None]. *)
Inductive retval (A : Type) : Type :=
| Value (r : A)
| CoroutineObject (c : coroutine A)
| PyNone.
Arguments Value {A} r.
Arguments CoroutineObject {A} c.
Arguments PyNone {A}.

Definition inspect {A} (a : A) : {b : A | a = b} := exist _ a eq_refl.

Section RetryWrapper.

Context {A : Type}.

(** [FILEMAKER_NOT_FOUND_ERRORS], imported from [fmrest.exceptions]. *)
Variable FILEMAKER_NOT_FOUND_ERRORS : list string.

Variable self : Server.

(** The decorated function applied to its arguments: [f(self, *args,
    **kwargs)] is this coroutine, not yet run. *)
Variable f : coroutine A.

(** [str(e) in FILEMAKER_NOT_FOUND_ERRORS]. *)
Definition in_not_found_errors (s : string) : bool :=
  existsb (String.eqb s) FILEMAKER_NOT_FOUND_ERRORS.

(** Lines 35-51: the [while] loop with its [try]/[except]/[finally], and
    the [if error is not None] after it.  [attempted] and [error] are the
    two locals; [finally] adds one to [attempted] on every path, which only
    the path that loops again can observe. *)
Equations? retry_loop (attempted : Z) (error : option exn) (w : world)
  : outcome (retval A) * world
  by wf (Z.to_nat (retry_get_record_on_not_found_attempts self + 1 - attempted)) lt :=
retry_loop attempted error w
  with inspect (Z.leb attempted (retry_get_record_on_not_found_attempts self)) := {
  | exist _ true Hle with f w := {
    | (Returned result, w1) => (Returned (Value result), w1)
    | (Raised e, w1) =>
        if is_FileMakerError e then
          if negb (in_not_found_errors (str e)) then (Raised e, w1)
          else retry_loop (attempted + 1) (Some e)
                 (time_sleep (retry_get_record_on_not_found_delay self) w1)
        else (Raised e, w1) }
  | exist _ false _ =>
      match error with
      | Some e => (Raised e, w)
      | None => (Returned PyNone, w)
      end }.
Proof. apply Z.leb_le in Hle. lia. Qed.

(** Lines 28-51: the [wrapper] that [_with_retry_get_resource(f)] returns.
    Line 30 returns [f(self, *args, **kwargs)] as it is; line 37 awaits
    it. *)
Definition _with_retry_get_resource : coroutine (retval A) :=
  fun w =>
    if negb (retry_get_record_on_not_found self) then
      (Returned (CoroutineObject f), w)
    else retry_loop 0 None w.

End RetryWrapper.

(** An error the wrapper retries on: a [FileMakerError] whose message is
    one of the not-found messages. *)
Definition recognised_not_found (NF : list string) (e : exn) : bool :=
  is_FileMakerError e && in_not_found_errors NF (str e).

(** [not_found_run NF d f k w err w' err']: started in [w] with [err] the
    last recorded error, [k] runs of [f] in a row, each followed by a sleep
    of [d], all fail with a recognised not-found error and lead to [w'],
    with [err'] the last recorded error. *)
Inductive not_found_run {A : Type} (NF : list string) (d : timedelta)
  (f : coroutine A) : nat -> world -> option exn -> world -> option exn -> Prop :=
| run_done w err : not_found_run NF d f 0 w err w err
| run_again k w err e w1 w' err' :
    f w = (Raised e, w1) ->
    recognised_not_found NF e = true ->
    not_found_run NF d f k (time_sleep d w1) (Some e) w' err' ->
    not_found_run NF d f (S k) w err w' err'.

(** The world after [k] failed attempts of a scripted operation, each one
    round trip followed by a sleep of [d]. *)
Definition after_attempts (d : timedelta) (k : nat) (w : world) : world :=
  mkWorld (_token w) (_headers w) (calls w + k)%nat (logins w)
    (slept w ++ repeat d k).

(** The error recorded after [k] failed attempts that raised [errs 0],
    ..., [errs (k - 1)]. *)
Definition last_error (errs : nat -> exn) (k : nat) (err : option exn) : option exn :=
  match k with
  | O => err
  | S k' => Some (errs k')
  end.

(** ** The relogin wrapper *)

Section ReloginWrapper.

Context {A : Type}.

(** Which remote application errors mean that the session is invalid. *)
Variable session_invalid : Z -> string -> bool.

(** The authentication service: the outcome of the login number [k], a
    new session token or a failure. *)
Variable authenticate : nat -> outcome string.

Definition is_session_invalid (e : exn) : bool :=
  match e with
  | FileMakerError code message => session_invalid code message
  | _ => false
  end.

(** Modelled from the spec: [Server.login] belongs to the base class
    [Server], whose file is not part of the sources.  Section 4.1: one
    re-authentication cycle acquires a new session token, replacing the
    stored one; a failure of the re-authentication propagates. *)
Definition login : coroutine unit :=
  fun w =>
    match authenticate (logins w) with
    | Returned new_token =>
        (Returned tt,
         mkWorld (Some new_token) (_headers w) (calls w) (S (logins w)) (slept w))
    | Raised e =>
        (Raised e,
         mkWorld (_token w) (_headers w) (calls w) (S (logins w)) (slept w))
    end.

(** Modelled from the spec: [Server._with_auto_relogin] belongs to the base
    class [Server], whose file is not part of the sources.  Section 4.1: the
    wrapper calls the wrapped operation; if it fails with an error
    classified as session invalid, the wrapper performs one
    re-authentication cycle and re-invokes the operation once more; any
    other error propagates unchanged, without retry; a failure of the
    re-authentication propagates. *)
Definition _with_auto_relogin (op : coroutine A) : coroutine A :=
  fun w =>
    match op w with
    | (Returned r, w1) => (Returned r, w1)
    | (Raised e, w1) =>
        if is_session_invalid e then
          match login w1 with
          | (Returned _, w2) => op w2
          | (Raised e', w2) => (Raised e', w2)
          end
        else (Raised e, w1)
    end.

End ReloginWrapper.

(** ** The retry decorator of the base class *)

Section BaseRetryDecorator.

Context {A : Type}.
Variable FILEMAKER_NOT_FOUND_ERRORS : list string.
Variable self : Server.
Variable f : coroutine A.

(** Modelled from the spec: [Server._with_retry_get_resource], the
    decorator that lines 89, 109 and 128 apply to the read operations, is an
    attribute of the base class [Server], whose file is not part of the
    sources; it is not the wrapper of lines 26-53.  Section 4.2, steps 1 to
    5: attempt the wrapped operation; on success return at once; on a
    failure whose message matches no entry of the not-found set re-raise at
    once (section 7: anything that is not a not-found error is re-raised
    untouched); on a match record the error, wait the delay and retry, up
    to [max_attempts + 1] attempts in all; after the last attempt raise the
    last recorded error.  [retries] is the number of attempts left after
    this one. *)
Fixpoint retry_attempts (retries : nat) (w : world) : outcome A * world :=
  match f w with
  | (Returned result, w1) => (Returned result, w1)
  | (Raised e, w1) =>
      if recognised_not_found FILEMAKER_NOT_FOUND_ERRORS e then
        let w2 := time_sleep (retry_get_record_on_not_found_delay self) w1 in
        match retries with
        | O => (Raised e, w2)
        | S retries' => retry_attempts retries' w2
        end
      else (Raised e, w1)
  end.

(** Modelled from the spec: [Server._with_retry_get_resource] of the absent
    base class, section 4.2.  When [enabled] is false the wrapper performs
    exactly one attempt and returns or raises whatever the inner call does,
    with no delay; [max_attempts] is a non-negative integer. *)
Definition Server_with_retry_get_resource : coroutine A :=
  fun w =>
    if retry_get_record_on_not_found self then
      retry_attempts (Z.to_nat (retry_get_record_on_not_found_attempts self)) w
    else f w.

End BaseRetryDecorator.

(** ** The remote-call function and the operations *)

(** The arguments of one HTTP request, as [request_async] receives them. *)
Record request (json : Type) : Type := mkRequest {
  req_method : string;
  req_path : string;
  req_json : option json;
  req_params : option json;
  req_headers : list (string * string);
  req_verify_ssl : bool;
  req_kwargs : list (string * json)
}.
Arguments mkRequest {json}.

(** What a [*_prepare_payload] method returns, unpacked by [**payload]. *)
Record payload (json : Type) : Type := mkPayload {
  method : string;
  path : string;
  data : option json;
  params : option json;
  kwargs : list (string * json)
}.
Arguments mkPayload {json}.
Arguments method {json}.
Arguments path {json}.
Arguments data {json}.
Arguments params {json}.
Arguments kwargs {json}.

Section RemoteCall.

(** Decoded JSON values. *)
Variable json : Type.

(** [json.loads]: a decoded value, or the decode failure. *)
Variable json_loads : string -> JSONDecodeError + json.

(** The network and the remote system: the round trip number [k] for a
    request gives a response body, or fails in the transport. *)
Variable http : request json -> nat -> string + string.

(** The application-level failure a decoded response indicates, if any:
    the code and the message of the remote system. *)
Variable application_error : json -> option (Z * string).

(** The value of the [Authorization] header for a session token. *)
Variable authorization : string -> string.

Variable FILEMAKER_NOT_FOUND_ERRORS : list string.
Variable session_invalid : Z -> string -> bool.
Variable authenticate : nat -> outcome string.
Variable self : Server.

Definition pop_header (name : string) (hs : list (string * string))
  : list (string * string) :=
  filter (fun h => negb (String.eqb (fst h) name)) hs.

(** Modelled from the spec: [Server._update_token_header] belongs to the
    base class.  Section 4.3: the current session token, if any, is
    attached to the outgoing headers; if no token is held, a stale
    [Authorization] header is stripped. *)
Definition _update_token_header (w : world) : world :=
  let others := pop_header "Authorization" (_headers w) in
  match _token w with
  | Some t =>
      mkWorld (_token w) (("Authorization", authorization t) :: others)
        (calls w) (logins w) (slept w)
  | None => mkWorld (_token w) others (calls w) (logins w) (slept w)
  end.

(** Modelled from the spec: [request_async] is imported from [fmrest.utils],
    which is not part of the sources.  Section 6: the transport performs
    one round trip and returns the raw response body as text, or fails with
    a transport-level error. *)
Definition request_async (rq : request json) : coroutine string :=
  fun w =>
    match http rq (calls w) with
    | inr response_text => (Returned response_text, round_trip w)
    | inl detail => (Raised (TransportError detail), round_trip w)
    end.

(** Modelled from the spec: [Server.handle_response_data] belongs to the
    base class.  Sections 4.3 and 8: a decoded response that indicates an
    application-level failure gives a domain error with the code and the
    message of the remote system; a success gives a result map equal to
    the decoded JSON. *)
Definition handle_response_data (response_data : json) : coroutine json :=
  match application_error response_data with
  | Some (code, message) => raise (FileMakerError code message)
  | None => ret response_data
  end.

(** Lines 169-190, the function under its decorator. *)
Definition _call_filemaker_async_body (p : payload json) : coroutine json :=
  fun w =>
    let url_ := (url self ++ path p)%string in
    let w1 := _update_token_header w in
    (response_text <-
       request_async
         (mkRequest (method p) url_ (data p) (params p) (_headers w1)
            (verify_ssl self) (kwargs p)) ;;
     match json_loads response_text with
     | inl ex => raise (BadJSON ex response_text)
     | inr response_data => handle_response_data response_data
     end)%coroutine w1.

(** The request that [_call_filemaker_async] sends for a payload from the
    world [w]. *)
Definition outgoing_request (p : payload json) (w : world) : request json :=
  mkRequest (method p) (url self ++ path p)%string (data p) (params p)
    (_headers (_update_token_header w)) (verify_ssl self) (kwargs p).

(** What one round trip amounts to for the remote-call function: the
    transport failure, the decode failure, the domain error or the decoded
    response of the round trip number [k]. *)
Definition exchange (rq : request json) (k : nat) : outcome json :=
  match http rq k with
  | inl detail => Raised (TransportError detail)
  | inr response_text =>
      match json_loads response_text with
      | inl ex => Raised (BadJSON ex response_text)
      | inr response_data =>
          match application_error response_data with
          | Some (code, message) => Raised (FileMakerError code message)
          | None => Returned response_data
          end
      end
  end.

(** Line 168: [@Server._with_auto_relogin]. *)
Definition _call_filemaker_async (p : payload json) : coroutine json :=
  _with_auto_relogin session_invalid authenticate (_call_filemaker_async_body p).

(** Lines 89-101, 109-126 and 128-146: the three read operations have one
    shape.  The payload comes from the operation's [*_prepare_payload], the
    result from its [*_prepare_result].  [@Server._with_retry_get_resource]
    is written above [@Server._with_auto_relogin], so the relogin decorator
    is applied to the body first and the retry decorator to the result.
    Both decorators are attributes of the base class. *)
Definition read_operation {A : Type} (p : payload json) (prepare_result : json -> A)
  : coroutine A :=
  Server_with_retry_get_resource FILEMAKER_NOT_FOUND_ERRORS self
    (_with_auto_relogin session_invalid authenticate
       (response <- _call_filemaker_async p ;;
        ret (prepare_result response))%coroutine).

Section ReadOperations.

Variables Record_ Foundset : Type.
Variable get_record_prepare_result : json -> Record_.
Variable get_records_prepare_result : json -> string -> Foundset.
Variable find_prepare_result : string -> json -> Foundset.

Definition get_record_async (get_record_prepare_payload : payload json)
  : coroutine Record_ :=
  read_operation get_record_prepare_payload get_record_prepare_result.

Definition get_records_async (layout : string)
  (get_records_prepare_payload : payload json) : coroutine Foundset :=
  read_operation get_records_prepare_payload
    (fun response => get_records_prepare_result response layout).

Definition find_async (layout : string) (find_prepare_payload : payload json)
  : coroutine Foundset :=
  read_operation find_prepare_payload
    (fun response => find_prepare_result layout response).

End ReadOperations.

End RemoteCall.

(** One retry attempt during which the session expires: the round trip
    number [c] is refused with the session-invalid error [e1], the login
    number [l] gives the token [new_token], and the round trip that follows
    fails with [e2], a recognised not-found error. *)
Definition expiring_attempt {json : Type}
  (answer : request json -> nat -> outcome json)
  (session_invalid : Z -> string -> bool) (authenticate : nat -> outcome string)
  (NF : list string) (c l : nat) (e1 : exn) (new_token : string) (e2 : exn) : Prop :=
  (forall rq, answer rq c = Raised e1) /\
  is_session_invalid session_invalid e1 = true /\
  authenticate l = Returned new_token /\
  (forall rq, answer rq (S c) = Raised e2) /\
  is_session_invalid session_invalid e2 = false /\
  recognised_not_found NF e2 = true.

(** ** Sample clients and operations *)

Definition NOT_FOUND_SAMPLE : list string :=
  ["Record is missing"; "No records match the request"].

Definition missing : exn := FileMakerError 101 "Record is missing".
Definition no_match : exn := FileMakerError 401 "No records match the request".
Definition field_missing : exn := FileMakerError 102 "Field is missing".
Definition expired : exn := FileMakerError 952 "Invalid FileMaker Data API token".

(** A client with retry enabled, [max_attempts = 2] and [delay = 0]. *)
Definition retrying_client : Server :=
  mkServer "https://host/fmi/data/v1/databases/db" true true 2 0%N.

(** The same client with retry disabled. *)
Definition plain_client : Server :=
  mkServer "https://host/fmi/data/v1/databases/db" true false 2 0%N.

Definition fresh_world : world := mkWorld (Some "t0") [] 0 0 [].

(** Fails with not-found on round trips 1 and 2, succeeds afterwards. *)
Definition third_time_lucky : nat -> outcome nat :=
  fun k =>
    match k with
    | 0%nat => Raised missing
    | 1%nat => Raised no_match
    | _ => Returned 7%nat
    end.

(** Fails with a not-found error on every round trip; the error of round
    trip [k] carries [k] as its code, which tells the errors apart. *)
Definition never_found_errors : nat -> exn :=
  fun k => FileMakerError (Z.of_nat k) "Record is missing".

Definition never_found : nat -> outcome nat :=
  fun k => Raised (never_found_errors k).

Definition always_seven : nat -> outcome nat := fun _ => Returned 7%nat.

(** The session-invalid classification of the sample: code 952. *)
Definition session_invalid_sample : Z -> string -> bool :=
  fun code _ => Z.eqb code 952.

(** An authentication service that hands out the token ["t1"]. *)
Definition authenticate_sample : nat -> outcome string :=
  fun _ => Returned "t1".

(** Session invalid on the first round trip, a result afterwards. *)
Definition expired_once : nat -> outcome nat :=
  fun k =>
    match k with
    | 0%nat => Raised expired
    | _ => Returned 7%nat
    end.

Definition always_expired : nat -> outcome nat := fun _ => Raised expired.

(** A toy decoded response: the code and the message of the remote
    system. *)
Inductive reply : Type :=
| Reply (code : Z) (message : string).

(** A toy decoder: three bodies decode, everything else is malformed. *)
Definition loads_sample (text : string) : JSONDecodeError + reply :=
  if String.eqb text "[0]" then inr (Reply 0 "OK")
  else if String.eqb text "[101]" then inr (Reply 101 "Record is missing")
  else if String.eqb text "[952]"
       then inr (Reply 952 "Invalid FileMaker Data API token")
  else inl (mkJSONDecodeError "Expecting value" text 0).

Definition application_error_sample (r : reply) : option (Z * string) :=
  match r with
  | Reply code message => if Z.eqb code 0 then None else Some (code, message)
  end.

Definition authorization_sample (t : string) : string := ("Bearer " ++ t)%string.

Definition payload_sample : payload reply :=
  mkPayload "GET" "/layouts/people/records/1" None None [].

(** A remote system that always answers with a success body. *)
Definition http_ok : request reply -> nat -> string + string :=
  fun _ _ => inr "[0]".

(** A remote system that always answers with an HTML page. *)
Definition http_html : request reply -> nat -> string + string :=
  fun _ _ => inr "<html>".

(** A remote system whose session expires before every request: each odd
    round trip is refused with the session-invalid error, each even one
    reports that the record is missing. *)
Definition http_expiring : request reply -> nat -> string + string :=
  fun _ k => if Nat.even k then inr "[952]" else inr "[101]".

(** ** The other operations *)

Section OtherOperations.

Variable json : Type.
Variable json_loads : string -> JSONDecodeError + json.
Variable http : request json -> nat -> string + string.
Variable application_error : json -> option (Z * string).
Variable authorization : string -> string.
Variable session_invalid : Z -> string -> bool.
Variable authenticate : nat -> outcome string.
Variable self : Server.

(** The body shared by the operations: send the prepared payload through
    [_call_filemaker_async] and map the response. *)
Definition undecorated_operation {A : Type} (p : payload json)
  (prepare_result : json -> A) : coroutine A :=
  (response <-
     _call_filemaker_async json json_loads http application_error authorization
       session_invalid authenticate self p ;;
   ret (prepare_result response))%coroutine.

(** The same body under [@Server._with_auto_relogin]. *)
Definition relogin_operation {A : Type} (p : payload json)
  (prepare_result : json -> A) : coroutine A :=
  _with_auto_relogin session_invalid authenticate
    (undecorated_operation p prepare_result).

Variables RecordId Done ScriptResult File : Type.
Variable create_record_prepare_result : json -> RecordId.
Variable edit_record_prepare_result : Done.
Variable delete_record_prepare_response : Done.
Variable perform_script_prepare_result : json -> ScriptResult.
Variable fetch_file_prepare_result : string -> string -> json -> File.

(** Lines 55-62: no decorator. *)
Definition create_record_async (create_record_prepare_payload : payload json)
  : coroutine RecordId :=
  undecorated_operation create_record_prepare_payload create_record_prepare_result.

(** Lines 64-79. *)
Definition edit_record_async (edit_record_prepare_payload : payload json)
  : coroutine Done :=
  relogin_operation edit_record_prepare_payload (fun _ => edit_record_prepare_result).

(** Lines 81-87. *)
Definition delete_record_async (delete_record_prepare_payload : payload json)
  : coroutine Done :=
  relogin_operation delete_record_prepare_payload
    (fun _ => delete_record_prepare_response).

(** Lines 103-107. *)
Definition perform_script_async (perform_script_prepare_payload : payload json)
  : coroutine ScriptResult :=
  relogin_operation perform_script_prepare_payload perform_script_prepare_result.

(** Lines 148-160. *)
Definition fetch_file_async (layout file_url : string)
  (fetch_file_prepare_payload : payload json) : coroutine File :=
  relogin_operation fetch_file_prepare_payload
    (fun response => fetch_file_prepare_result layout file_url response).

Variable Globals : Type.

(** [self.set_globals(globals_)], a method of the base class, taken as it
    stands: a call on the client that gives the payload or fails, and may
    change the client. *)
Variable set_globals : Globals -> coroutine (payload json).
Variable set_globals_prepare_result : Done.

(** Lines 162-166. *)
Definition set_globals_async (globals_ : Globals) : coroutine Done :=
  _with_auto_relogin session_invalid authenticate
    (payload_ <- set_globals globals_ ;;
     _ <- _call_filemaker_async json json_loads http application_error
            authorization session_invalid authenticate self payload_ ;;
     ret set_globals_prepare_result)%coroutine.

End OtherOperations.

(** ** [__repr__] *)

(** [str(b)] for a Python [bool]. *)
Definition bool_str (b : bool) : string := if b then "True" else "False".

(** [bool(self._token)]: [None] and the empty string are false. *)
Definition logged_in (w : world) : bool :=
  match _token w with
  | Some (String _ _) => true
  | _ => false
  end.

(** Lines 21-24. *)
Definition __repr__ (database : string) (w : world) : string :=
  ("<ServerAsync logged_in=" ++ bool_str (logged_in w) ++ " database=" ++
   database ++ ">")%string.

(** ** Vocabulary for the facts on the wrappers *)

(** The wrapper came back with an awaited result or with an error. *)
Definition settled {A : Type} (o : outcome (retval A)) : bool :=
  match o with
  | Returned (Value _) => true
  | Raised _ => true
  | _ => false
  end.

(** [o] is the outcome [i] of the inner call, as the wrapper hands it on. *)
Definition hands_on {A : Type} (i : outcome A) (o : outcome (retval A)) : Prop :=
  match o with
  | Returned (Value r) => i = Returned r
  | Raised e => i = Raised e
  | _ => False
  end.

(** Started in [w], the operation ended with [r] after a retry: two round
    trips, one sleep of [d] between them, no login. *)
Definition retried_once {A : Type} (d : timedelta) (w : world) (r : A)
  (o : outcome A * world) : Prop :=
  fst o = Returned r /\
  calls (snd o) = S (S (calls w)) /\
  slept (snd o) = slept w ++ [d] /\
  logins (snd o) = logins w.

(** Started in [w], the operation raised [e] after its first round trip:
    no sleep, no login. *)
Definition raised_at_once {A : Type} (w : world) (e : exn)
  (o : outcome A * world) : Prop :=
  fst o = Raised e /\
  calls (snd o) = S (calls w) /\
  slept (snd o) = slept w /\
  logins (snd o) = logins w.

(** One retry attempt during which the session is refused twice: the round
    trips [c] and [c + 1] are refused with session-invalid errors, the
    logins [l] and [l + 1] give tokens, and the round trip [c + 2] fails
    with [e3], a recognised not-found error. *)
Definition twice_refused_attempt {json : Type}
  (answer : request json -> nat -> outcome json)
  (session_invalid : Z -> string -> bool) (authenticate : nat -> outcome string)
  (NF : list string) (c l : nat) (e1 e2 : exn) (t1 t2 : string) (e3 : exn) : Prop :=
  (forall rq, answer rq c = Raised e1) /\
  is_session_invalid session_invalid e1 = true /\
  authenticate l = Returned t1 /\
  (forall rq, answer rq (S c) = Raised e2) /\
  is_session_invalid session_invalid e2 = true /\
  authenticate (S l) = Returned t2 /\
  (forall rq, answer rq (S (S c)) = Raised e3) /\
  is_session_invalid session_invalid e3 = false /\
  recognised_not_found NF e3 = true.

(** A remote system on which the record is missing at the first round trip
    and found afterwards. *)
Definition http_missing_once : request reply -> nat -> string + string :=
  fun _ k =>
    match k with
    | 0%nat => inr "[101]"
    | _ => inr "[0]"
    end.

(** A remote system that refuses the session on two round trips out of
    three and reports a missing record on the third. *)
Definition http_twice_refusing : request reply -> nat -> string + string :=
  fun _ k => if Nat.eqb (Nat.modulo k 3) 2 then inr "[101]" else inr "[952]".

(** The base-class method [set_globals] of the sample: it gives the sample
    payload and leaves the client as it is. *)
Definition set_globals_sample (globals_ : list (string * string))
  : coroutine (payload reply) :=
  ret payload_sample.

(** [self] with another bound on the attempts. *)
Definition with_attempts (self : Server) (n : Z) : Server :=
  mkServer (url self) (verify_ssl self) (retry_get_record_on_not_found self) n
    (retry_get_record_on_not_found_delay self).

(** A client with retry enabled and a negative bound. *)
Definition negative_client : Server :=
  mkServer "https://host/fmi/data/v1/databases/db" true true (-1) 0%N.

(** A remote system that refuses every request with the session-invalid
    error. *)
Definition http_refusing : request reply -> nat -> string + string :=
  fun _ _ => inr "[952]".

(** A remote system that cannot be reached. *)
Definition http_down : request reply -> nat -> string + string :=
  fun _ _ => inl "Connection refused".

(** A remote system on which the record is missing. *)
Definition http_missing : request reply -> nat -> string + string :=
  fun _ _ => inr "[101]".

(** * Facts *)

(** ** The retry loop *)

Section RetryFacts.

Context {A : Type}.
Variable NF : list string.
Variable self : Server.

Abbreviation max_attempts := (retry_get_record_on_not_found_attempts self).
Abbreviation delay := (retry_get_record_on_not_found_delay self).

Lemma retry_loop_eq (f : coroutine A) attempted error w :
  retry_loop NF self f attempted error w =
  if Z.leb attempted max_attempts then
    match f w with
    | (Returned result, w1) => (Returned (Value result), w1)
    | (Raised e, w1) =>
        if is_FileMakerError e then
          if negb (in_not_found_errors NF (str e)) then (Raised e, w1)
          else retry_loop NF self f (attempted + 1) (Some e) (time_sleep delay w1)
        else (Raised e, w1)
    end
  else
    match error with
    | Some e => (Raised e, w)
    | None => (Returned PyNone, w)
    end.
Proof.
  rewrite retry_loop_equation_1.
  unfold inspect.
  enough (G : forall b (H : Z.leb attempted max_attempts = b),
             retry_loop_unfold_clause_1 NF self f attempted (exist _ b H) error w =
             if b then
               match f w with
               | (Returned result, w1) => (Returned (Value result), w1)
               | (Raised e, w1) =>
                   if is_FileMakerError e then
                     if negb (in_not_found_errors NF (str e)) then (Raised e, w1)
                     else retry_loop NF self f (attempted + 1) (Some e)
                            (time_sleep delay w1)
                   else (Raised e, w1)
               end
             else
               match error with
               | Some e => (Raised e, w)
               | None => (Returned PyNone, w)
               end) by apply G.
  intros [] H; simpl.
  - destruct (f w) as [[r|e] w1]; reflexivity.
  - reflexivity.
Qed.

(** A run of recognised failures is [k] turns of the loop. *)
Lemma retry_loop_not_found_run (f : coroutine A) k :
  forall w err w' err' attempted,
    not_found_run NF delay f k w err w' err' ->
    attempted + Z.of_nat k <= max_attempts + 1 ->
    retry_loop NF self f attempted err w =
    retry_loop NF self f (attempted + Z.of_nat k) err' w'.
Proof.
  induction k as [|k IH]; intros w err w' err' attempted Hrun Hle.
  - inversion Hrun; subst. f_equal. lia.
  - inversion Hrun as [|k0 w2 err2 e w1 w3 err3 Hf Hrec Hrest]; subst.
    rewrite retry_loop_eq.
    replace (Z.leb attempted max_attempts) with true
      by (symmetry; apply Z.leb_le; lia).
    rewrite Hf.
    unfold recognised_not_found in Hrec.
    apply andb_true_iff in Hrec as [Hfm Hnf].
    rewrite Hfm, Hnf. simpl negb. cbv iota.
    rewrite (IH _ _ _ _ (attempted + 1) Hrest) by lia.
    f_equal. lia.
Qed.

(** A scripted operation whose next [k] round trips fail with recognised
    errors makes a run of length [k]. *)
Lemma scripted_not_found_run (script : nat -> outcome A) k :
  forall w err (errs : nat -> exn),
    (forall i, (i < k)%nat ->
       script (calls w + i)%nat = Raised (errs i) /\
       recognised_not_found NF (errs i) = true) ->
    not_found_run NF delay (scripted script) k w err
      (after_attempts delay k w) (last_error errs k err).
Proof.
  induction k as [|k IH]; intros w err errs H.
  - unfold after_attempts. simpl.
    rewrite Nat.add_0_r, app_nil_r. destruct w; constructor.
  - destruct (H 0%nat ltac:(lia)) as [H0 R0].
    rewrite Nat.add_0_r in H0.
    apply run_again with (e := errs 0%nat) (w1 := round_trip w).
    + unfold scripted. rewrite H0. reflexivity.
    + exact R0.
    + specialize (IH (time_sleep delay (round_trip w)) (Some (errs 0%nat))
                    (fun i => errs (S i))).
      replace (after_attempts delay (S k) w)
        with (after_attempts delay k (time_sleep delay (round_trip w))).
      2:{ unfold after_attempts, time_sleep, round_trip; simpl.
          rewrite <- app_assoc. simpl. f_equal. lia. }
      replace (last_error errs (S k) err)
        with (last_error (fun i => errs (S i)) k (Some (errs 0%nat)))
        by (destruct k; reflexivity).
      apply IH. intros i Hi. simpl calls.
      replace (S (calls w) + i)%nat with (calls w + S i)%nat by lia.
      apply H. lia.
Qed.

End RetryFacts.

(** ** The retry wrapper on scripted operations *)

Section RetryWrapperFacts.

Context {A : Type}.
Variable NF : list string.
Variable self : Server.

Abbreviation max_attempts := (retry_get_record_on_not_found_attempts self).
Abbreviation delay := (retry_get_record_on_not_found_delay self).

Lemma retry_disabled (f : coroutine A) w :
  retry_get_record_on_not_found self = false ->
  _with_retry_get_resource NF self f w = (Returned (CoroutineObject f), w).
Proof.
  intros H. unfold _with_retry_get_resource. rewrite H. reflexivity.
Qed.

(** With retry enabled, after [k] recognised failures the wrapper is at the
    loop test with [attempted = k]. *)
Lemma retry_enabled_after_run (f : coroutine A) k w w' err' :
  retry_get_record_on_not_found self = true ->
  not_found_run NF delay f k w None w' err' ->
  Z.of_nat k <= max_attempts + 1 ->
  _with_retry_get_resource NF self f w =
  retry_loop NF self f (Z.of_nat k) err' w'.
Proof.
  intros Hen Hrun Hle. unfold _with_retry_get_resource. rewrite Hen. simpl.
  rewrite (retry_loop_not_found_run NF self f k w None w' err' 0 Hrun) by lia.
  reflexivity.
Qed.

(** The attempt that follows [k] recognised failures decides the call when
    it does not fail with a recognised error. *)
Lemma retry_scripted_decided (script : nat -> outcome A) (errs : nat -> exn) k w :
  retry_get_record_on_not_found self = true ->
  Z.of_nat k <= max_attempts ->
  (forall i, (i < k)%nat ->
     script (calls w + i)%nat = Raised (errs i) /\
     recognised_not_found NF (errs i) = true) ->
  _with_retry_get_resource NF self (scripted script) w =
  match script (calls w + k)%nat with
  | Returned r => (Returned (Value r), round_trip (after_attempts delay k w))
  | Raised e =>
      if recognised_not_found NF e then
        retry_loop NF self (scripted script) (Z.of_nat k + 1) (Some e)
          (time_sleep delay (round_trip (after_attempts delay k w)))
      else (Raised e, round_trip (after_attempts delay k w))
  end.
Proof.
  intros Hen Hle H.
  rewrite (retry_enabled_after_run (scripted script) k w _ _ Hen
             (scripted_not_found_run NF self script k w None errs H))
    by lia.
  rewrite retry_loop_eq.
  replace (Z.leb (Z.of_nat k) max_attempts) with true
    by (symmetry; apply Z.leb_le; lia).
  unfold scripted at 1. simpl calls.
  destruct (script (calls w + k)%nat) as [r|e]; [reflexivity|].
  unfold recognised_not_found.
  destruct (is_FileMakerError e); [|reflexivity].
  destruct (in_not_found_errors NF (str e)); reflexivity.
Qed.

(** When every attempt the loop allows fails with a recognised error, the
    wrapper raises the last of them, after one sleep per attempt. *)
Lemma retry_scripted_exhausted (script : nat -> outcome A) (errs : nat -> exn) w :
  retry_get_record_on_not_found self = true ->
  0 <= max_attempts ->
  (forall i, (i < Z.to_nat (max_attempts + 1))%nat ->
     script (calls w + i)%nat = Raised (errs i) /\
     recognised_not_found NF (errs i) = true) ->
  _with_retry_get_resource NF self (scripted script) w =
  (Raised (errs (Z.to_nat max_attempts)),
   after_attempts delay (Z.to_nat (max_attempts + 1)) w).
Proof.
  intros Hen Hmax H.
  rewrite (retry_enabled_after_run (scripted script) _ w _ _ Hen
             (scripted_not_found_run NF self script
                (Z.to_nat (max_attempts + 1)) w None errs H))
    by lia.
  rewrite retry_loop_eq.
  replace (Z.leb (Z.of_nat (Z.to_nat (max_attempts + 1))) max_attempts) with false
    by (symmetry; apply Z.leb_gt; lia).
  replace (Z.to_nat (max_attempts + 1)) with (S (Z.to_nat max_attempts)) by lia.
  reflexivity.
Qed.

End RetryWrapperFacts.

(** ** The claims on the retry wrapper *)

(** C1, as the code behaves.  With retry disabled, awaiting the wrapper of
    a read operation that would return [7] gives back the coroutine object
    of the operation, not [7]: line 30 returns [f(self, *args, **kwargs)]
    without awaiting it, so the operation is never run and no round trip
    is made. *)
Theorem disabled_wrapper_returns_unawaited_coroutine :
  _with_retry_get_resource NOT_FOUND_SAMPLE plain_client
    (scripted always_seven) fresh_world
  = (Returned (CoroutineObject (scripted always_seven)), fresh_world)
  /\ scripted always_seven fresh_world = (Returned 7%nat, round_trip fresh_world)
  /\ fst (_with_retry_get_resource NOT_FOUND_SAMPLE plain_client
            (scripted always_seven) fresh_world)
     <> Returned (Value 7%nat)
  /\ calls (snd (_with_retry_get_resource NOT_FOUND_SAMPLE plain_client
                   (scripted always_seven) fresh_world)) = 0%nat.
Proof.
  rewrite (retry_disabled NOT_FOUND_SAMPLE plain_client) by reflexivity.
  repeat split; try reflexivity.
  simpl. discriminate.
Qed.

(** C2.  With retry enabled, when the first [k] attempts fail with
    recognised not-found errors and attempt [k + 1] is within the bound and
    succeeds, the wrapper returns the result of that attempt after exactly
    [k + 1] inner calls and [k] sleeps; nothing else changes.  With
    [max_attempts = 2] and [k = 2] this is the result of attempt 3 after
    exactly 3 inner calls. *)
Theorem retry_returns_first_success :
  forall (A : Type) (NF : list string) (self : Server)
         (script : nat -> outcome A) (errs : nat -> exn) (k : nat)
         (w : world) (r : A),
    retry_get_record_on_not_found self = true ->
    Z.of_nat k <= retry_get_record_on_not_found_attempts self ->
    (forall i, (i < k)%nat ->
       script (calls w + i)%nat = Raised (errs i) /\
       recognised_not_found NF (errs i) = true) ->
    script (calls w + k)%nat = Returned r ->
    _with_retry_get_resource NF self (scripted script) w =
    (Returned (Value r),
     mkWorld (_token w) (_headers w) (calls w + k + 1)%nat (logins w)
       (slept w ++ repeat (retry_get_record_on_not_found_delay self) k)).
Proof.
  intros A NF self script errs k w r Hen Hle Hfail Hok.
  rewrite (retry_scripted_decided NF self script errs k w Hen Hle Hfail), Hok.
  unfold round_trip, after_attempts. simpl. do 2 f_equal. lia.
Qed.

Lemma retry_returns_first_success_witness :
  _with_retry_get_resource NOT_FOUND_SAMPLE retrying_client
    (scripted third_time_lucky) fresh_world
  = (Returned (Value 7%nat), mkWorld (Some "t0") [] 3 0 [0%N; 0%N]).
Proof.
  apply (retry_returns_first_success nat NOT_FOUND_SAMPLE retrying_client
           third_time_lucky (fun i => if Nat.even i then missing else no_match)
           2%nat fresh_world 7%nat).
  - reflexivity.
  - simpl. lia.
  - intros [|[|i]] Hi; [split; reflexivity | split; reflexivity | lia].
  - reflexivity.
Defined.

(** C3.  With retry enabled and [0 <= max_attempts], when each of the
    [max_attempts + 1] attempts fails with a recognised not-found error,
    the wrapper makes exactly [max_attempts + 1] inner calls and raises the
    error of the last attempt. *)
Theorem retry_exhausted_raises_last_error :
  forall (A : Type) (NF : list string) (self : Server)
         (script : nat -> outcome A) (errs : nat -> exn) (w : world),
    retry_get_record_on_not_found self = true ->
    0 <= retry_get_record_on_not_found_attempts self ->
    (forall i, (i < Z.to_nat (retry_get_record_on_not_found_attempts self + 1))%nat ->
       script (calls w + i)%nat = Raised (errs i) /\
       recognised_not_found NF (errs i) = true) ->
    fst (_with_retry_get_resource NF self (scripted script) w)
    = Raised (errs (Z.to_nat (retry_get_record_on_not_found_attempts self)))
    /\ calls (snd (_with_retry_get_resource NF self (scripted script) w))
       = (calls w + Z.to_nat (retry_get_record_on_not_found_attempts self + 1))%nat.
Proof.
  intros A NF self script errs w Hen Hmax Hfail.
  rewrite (retry_scripted_exhausted NF self script errs w Hen Hmax Hfail).
  split; reflexivity.
Qed.

Lemma retry_exhausted_raises_last_error_witness :
  fst (_with_retry_get_resource NOT_FOUND_SAMPLE retrying_client
         (scripted never_found) fresh_world)
  = Raised (FileMakerError 2 "Record is missing")
  /\ calls (snd (_with_retry_get_resource NOT_FOUND_SAMPLE retrying_client
                   (scripted never_found) fresh_world)) = 3%nat.
Proof.
  apply (retry_exhausted_raises_last_error nat NOT_FOUND_SAMPLE retrying_client
           never_found never_found_errors fresh_world).
  - reflexivity.
  - simpl. lia.
  - intros i _. split; reflexivity.
Defined.

(** C4.  With retry enabled and [0 <= max_attempts], when the inner call
    fails with a [FileMakerError] whose message is not in the not-found
    set, the wrapper raises that error after exactly one inner call and
    without sleeping. *)
Theorem retry_reraises_unrecognised_error :
  forall (A : Type) (NF : list string) (self : Server)
         (script : nat -> outcome A) (w : world) (e : exn),
    retry_get_record_on_not_found self = true ->
    0 <= retry_get_record_on_not_found_attempts self ->
    script (calls w) = Raised e ->
    is_FileMakerError e = true ->
    in_not_found_errors NF (str e) = false ->
    _with_retry_get_resource NF self (scripted script) w =
    (Raised e,
     mkWorld (_token w) (_headers w) (S (calls w)) (logins w) (slept w)).
Proof.
  intros A NF self script w e Hen Hmax He Hfm Hnf.
  rewrite (retry_scripted_decided NF self script (fun _ => e) 0%nat w Hen Hmax)
    by (intros i Hi; lia).
  rewrite Nat.add_0_r, He.
  unfold recognised_not_found. rewrite Hfm, Hnf. simpl.
  unfold round_trip, after_attempts. simpl.
  rewrite Nat.add_0_r, app_nil_r. reflexivity.
Qed.

Lemma retry_reraises_unrecognised_error_witness :
  _with_retry_get_resource NOT_FOUND_SAMPLE retrying_client
    (scripted (fun _ : nat => @Raised nat field_missing)) fresh_world
  = (Raised field_missing, mkWorld (Some "t0") [] 1 0 []).
Proof.
  apply (retry_reraises_unrecognised_error nat NOT_FOUND_SAMPLE retrying_client
           (fun _ => Raised field_missing) fresh_world field_missing).
  - reflexivity.
  - simpl. lia.
  - reflexivity.
  - reflexivity.
  - reflexivity.
Defined.

(** C9.  With retry enabled and [0 <= max_attempts], when the inner call
    fails with an error that is not a [FileMakerError] (a transport error
    or a malformed-response error), the wrapper lets it through unchanged:
    exactly one inner call, no sleep, no retry. *)
Theorem retry_passes_other_errors_through :
  forall (A : Type) (NF : list string) (self : Server)
         (script : nat -> outcome A) (w : world) (e : exn),
    retry_get_record_on_not_found self = true ->
    0 <= retry_get_record_on_not_found_attempts self ->
    script (calls w) = Raised e ->
    is_FileMakerError e = false ->
    _with_retry_get_resource NF self (scripted script) w =
    (Raised e,
     mkWorld (_token w) (_headers w) (S (calls w)) (logins w) (slept w)).
Proof.
  intros A NF self script w e Hen Hmax He Hfm.
  rewrite (retry_scripted_decided NF self script (fun _ => e) 0%nat w Hen Hmax)
    by (intros i Hi; lia).
  rewrite Nat.add_0_r, He.
  unfold recognised_not_found. rewrite Hfm. simpl.
  unfold round_trip, after_attempts. simpl.
  rewrite Nat.add_0_r, app_nil_r. reflexivity.
Qed.

Lemma retry_passes_other_errors_through_witness :
  _with_retry_get_resource NOT_FOUND_SAMPLE retrying_client
    (scripted (fun _ : nat =>
       @Raised nat (BadJSON (mkJSONDecodeError "Expecting value" "<html>" 0) "<html>")))
    fresh_world
  = (Raised (BadJSON (mkJSONDecodeError "Expecting value" "<html>" 0) "<html>"),
     mkWorld (Some "t0") [] 1 0 [])
  /\
  _with_retry_get_resource NOT_FOUND_SAMPLE retrying_client
    (scripted (fun _ : nat => @Raised nat (TransportError "Record is missing")))
    fresh_world
  = (Raised (TransportError "Record is missing"), mkWorld (Some "t0") [] 1 0 []).
Proof.
  split.
  - apply (retry_passes_other_errors_through nat NOT_FOUND_SAMPLE retrying_client
             (fun _ => Raised (BadJSON (mkJSONDecodeError "Expecting value" "<html>" 0)
                                 "<html>"))
             fresh_world _).
    + reflexivity.
    + simpl. lia.
    + reflexivity.
    + reflexivity.
  - apply (retry_passes_other_errors_through nat NOT_FOUND_SAMPLE retrying_client
             (fun _ => Raised (TransportError "Record is missing")) fresh_world _).
    + reflexivity.
    + simpl. lia.
    + reflexivity.
    + reflexivity.
Defined.

(** C10.  With retry enabled and [0 <= max_attempts], when each of the
    [max_attempts + 1] attempts fails with a recognised not-found error,
    the wrapper sleeps the configured delay [max_attempts + 1] times: once
    after every failed attempt, the last one included, before it raises. *)
Theorem retry_sleeps_after_every_failure :
  forall (A : Type) (NF : list string) (self : Server)
         (script : nat -> outcome A) (errs : nat -> exn) (w : world),
    retry_get_record_on_not_found self = true ->
    0 <= retry_get_record_on_not_found_attempts self ->
    (forall i, (i < Z.to_nat (retry_get_record_on_not_found_attempts self + 1))%nat ->
       script (calls w + i)%nat = Raised (errs i) /\
       recognised_not_found NF (errs i) = true) ->
    slept (snd (_with_retry_get_resource NF self (scripted script) w))
    = slept w ++ repeat (retry_get_record_on_not_found_delay self)
                   (Z.to_nat (retry_get_record_on_not_found_attempts self + 1)).
Proof.
  intros A NF self script errs w Hen Hmax Hfail.
  rewrite (retry_scripted_exhausted NF self script errs w Hen Hmax Hfail).
  reflexivity.
Qed.

Lemma retry_sleeps_after_every_failure_witness :
  slept (snd (_with_retry_get_resource NOT_FOUND_SAMPLE retrying_client
                (scripted never_found) fresh_world))
  = [0%N; 0%N; 0%N].
Proof.
  apply (retry_sleeps_after_every_failure nat NOT_FOUND_SAMPLE retrying_client
           never_found never_found_errors fresh_world).
  - reflexivity.
  - simpl. lia.
  - intros i _. split; reflexivity.
Defined.

(** ** The relogin wrapper *)

Section ReloginFacts.

Context {A : Type}.
Variable session_invalid : Z -> string -> bool.
Variable authenticate : nat -> outcome string.

Lemma relogin_success (op : coroutine A) w r w1 :
  op w = (Returned r, w1) ->
  _with_auto_relogin session_invalid authenticate op w = (Returned r, w1).
Proof. intros H. unfold _with_auto_relogin. rewrite H. reflexivity. Qed.

Lemma relogin_other_error (op : coroutine A) w e w1 :
  op w = (Raised e, w1) ->
  is_session_invalid session_invalid e = false ->
  _with_auto_relogin session_invalid authenticate op w = (Raised e, w1).
Proof. intros H He. unfold _with_auto_relogin. rewrite H, He. reflexivity. Qed.

Lemma relogin_session_invalid (op : coroutine A) w e w1 new_token :
  op w = (Raised e, w1) ->
  is_session_invalid session_invalid e = true ->
  authenticate (logins w1) = Returned new_token ->
  _with_auto_relogin session_invalid authenticate op w =
  op (mkWorld (Some new_token) (_headers w1) (calls w1) (S (logins w1)) (slept w1)).
Proof.
  intros H He Hauth. unfold _with_auto_relogin, login.
  rewrite H, He, Hauth. reflexivity.
Qed.

End ReloginFacts.

(** C7.  For an operation under the relogin wrapper whose first round trip
    fails with [e]: if [e] is not session-invalid, [e] propagates after
    that one call and no login; if [e] is session-invalid and the
    re-authentication gives a token, the wrapper logs in exactly once, stores
    the new token and runs the operation exactly once more, whose outcome is
    the outcome of the wrapper; in particular a second session-invalid
    failure is raised after one relogin and two calls, with no third
    call. *)
Theorem relogin_once_then_one_retry :
  forall (A : Type) (session_invalid : Z -> string -> bool)
         (authenticate : nat -> outcome string)
         (script : nat -> outcome A) (w : world) (e : exn),
    script (calls w) = Raised e ->
    (is_session_invalid session_invalid e = false ->
     _with_auto_relogin session_invalid authenticate (scripted script) w =
     (Raised e,
      mkWorld (_token w) (_headers w) (S (calls w)) (logins w) (slept w)))
    /\
    (is_session_invalid session_invalid e = true ->
     forall new_token, authenticate (logins w) = Returned new_token ->
       _with_auto_relogin session_invalid authenticate (scripted script) w =
       (script (S (calls w)),
        mkWorld (Some new_token) (_headers w) (S (S (calls w))) (S (logins w))
          (slept w))
       /\
       (forall e2, script (S (calls w)) = Raised e2 ->
          is_session_invalid session_invalid e2 = true ->
          _with_auto_relogin session_invalid authenticate (scripted script) w =
          (Raised e2,
           mkWorld (Some new_token) (_headers w) (S (S (calls w))) (S (logins w))
             (slept w)))).
Proof.
  intros A session_invalid authenticate script w e He.
  assert (Hfirst : scripted script w = (Raised e, round_trip w))
    by (unfold scripted; rewrite He; reflexivity).
  split.
  - intros Hsi.
    rewrite (relogin_other_error _ _ _ _ _ _ Hfirst Hsi). reflexivity.
  - intros Hsi new_token Hauth.
    assert (Hall : _with_auto_relogin session_invalid authenticate (scripted script) w =
                   (script (S (calls w)),
                    mkWorld (Some new_token) (_headers w) (S (S (calls w)))
                      (S (logins w)) (slept w))).
    { rewrite (relogin_session_invalid _ _ _ _ _ _ new_token Hfirst Hsi Hauth).
      reflexivity. }
    split; [exact Hall|].
    intros e2 He2 _. rewrite Hall, He2. reflexivity.
Qed.

Lemma relogin_once_then_one_retry_witness :
  _with_auto_relogin session_invalid_sample authenticate_sample
    (scripted (fun _ : nat => @Raised nat field_missing)) fresh_world
  = (Raised field_missing, mkWorld (Some "t0") [] 1 0 [])
  /\
  _with_auto_relogin session_invalid_sample authenticate_sample
    (scripted expired_once) fresh_world
  = (Returned 7%nat, mkWorld (Some "t1") [] 2 1 [])
  /\
  _with_auto_relogin session_invalid_sample authenticate_sample
    (scripted always_expired) fresh_world
  = (Raised expired, mkWorld (Some "t1") [] 2 1 []).
Proof.
  split; [|split].
  - apply (relogin_once_then_one_retry nat session_invalid_sample authenticate_sample
             (fun _ => Raised field_missing) fresh_world field_missing eq_refl).
    reflexivity.
  - apply (relogin_once_then_one_retry nat session_invalid_sample authenticate_sample
             expired_once fresh_world expired eq_refl).
    + reflexivity.
    + reflexivity.
  - apply (relogin_once_then_one_retry nat session_invalid_sample authenticate_sample
             always_expired fresh_world expired eq_refl).
    + reflexivity.
    + reflexivity.
    + reflexivity.
    + reflexivity.
Defined.

(** ** The remote-call function *)

Section RemoteCallFacts.

Variable json : Type.
Variable json_loads : string -> JSONDecodeError + json.
Variable http : request json -> nat -> string + string.
Variable application_error : json -> option (Z * string).
Variable authorization : string -> string.
Variable session_invalid : Z -> string -> bool.
Variable authenticate : nat -> outcome string.
Variable self : Server.

Abbreviation call_body :=
  (_call_filemaker_async_body json json_loads http application_error authorization self).
Abbreviation call :=
  (_call_filemaker_async json json_loads http application_error authorization
     session_invalid authenticate self).
Abbreviation update := (_update_token_header authorization).
Abbreviation sent := (outgoing_request json authorization self).
Abbreviation answer := (exchange json json_loads http application_error).

Lemma update_token_header_calls w : calls (update w) = calls w.
Proof. unfold _update_token_header. destruct (_token w); reflexivity. Qed.

Lemma update_token_header_logins w : logins (update w) = logins w.
Proof. unfold _update_token_header. destruct (_token w); reflexivity. Qed.

Lemma update_token_header_slept w : slept (update w) = slept w.
Proof. unfold _update_token_header. destruct (_token w); reflexivity. Qed.

(** The undecorated function makes one round trip and returns or raises
    what the exchange gives. *)
Lemma call_body_exchange (p : payload json) w :
  call_body p w = (answer (sent p w) (calls w), round_trip (update w)).
Proof.
  unfold _call_filemaker_async_body, bind, request_async, exchange,
    outgoing_request, handle_response_data, raise, ret.
  rewrite update_token_header_calls.
  destruct (http _ (calls w)) as [detail|response_text]; [reflexivity|].
  destruct (json_loads response_text) as [ex|response_data]; [reflexivity|].
  destruct (application_error response_data) as [[code message]|]; reflexivity.
Qed.

(** C8.  When the transport returns a body: if the body decodes and the
    decoded response indicates no application error, the remote-call
    function returns the decoded response; if the body does not decode, it
    raises [BadJSON] holding the decode failure and the raw body.  Either
    way after one round trip. *)
Theorem remote_call_decodes_or_raises_BadJSON :
  forall (p : payload json) (w : world) (response_text : string),
    http (sent p w) (calls w) = inr response_text ->
    (forall response_data,
       json_loads response_text = inr response_data ->
       application_error response_data = None ->
       call p w = (Returned response_data, round_trip (update w)))
    /\
    (forall ex,
       json_loads response_text = inl ex ->
       call p w = (Raised (BadJSON ex response_text), round_trip (update w))).
Proof.
  intros p w response_text Hhttp.
  assert (Hbody := call_body_exchange p w).
  unfold exchange in Hbody. rewrite Hhttp in Hbody.
  split.
  - intros response_data Hloads Hok.
    rewrite Hloads, Hok in Hbody.
    unfold _call_filemaker_async.
    apply relogin_success. exact Hbody.
  - intros ex Hloads.
    rewrite Hloads in Hbody.
    unfold _call_filemaker_async.
    apply relogin_other_error; [exact Hbody | reflexivity].
Qed.

End RemoteCallFacts.

Lemma remote_call_decodes_or_raises_BadJSON_witness :
  _call_filemaker_async reply loads_sample http_ok application_error_sample
    authorization_sample session_invalid_sample authenticate_sample
    retrying_client payload_sample fresh_world
  = (Returned (Reply 0 "OK"),
     mkWorld (Some "t0") [("Authorization", "Bearer t0")] 1 0 [])
  /\
  _call_filemaker_async reply loads_sample http_html application_error_sample
    authorization_sample session_invalid_sample authenticate_sample
    retrying_client payload_sample fresh_world
  = (Raised (BadJSON (mkJSONDecodeError "Expecting value" "<html>" 0) "<html>"),
     mkWorld (Some "t0") [("Authorization", "Bearer t0")] 1 0 []).
Proof.
  split.
  - apply (remote_call_decodes_or_raises_BadJSON reply loads_sample http_ok
             application_error_sample authorization_sample session_invalid_sample
             authenticate_sample retrying_client payload_sample fresh_world
             "[0]" eq_refl).
    + reflexivity.
    + reflexivity.
  - apply (remote_call_decodes_or_raises_BadJSON reply loads_sample http_html
             application_error_sample authorization_sample session_invalid_sample
             authenticate_sample retrying_client payload_sample fresh_world
             "<html>" eq_refl).
    reflexivity.
Defined.

(** ** The read operations: retry outside relogin *)

Section ReadOperationFacts.

Variable json : Type.
Variable json_loads : string -> JSONDecodeError + json.
Variable http : request json -> nat -> string + string.
Variable application_error : json -> option (Z * string).
Variable authorization : string -> string.
Variable NF : list string.
Variable session_invalid : Z -> string -> bool.
Variable authenticate : nat -> outcome string.
Variable self : Server.

Abbreviation delay := (retry_get_record_on_not_found_delay self).
Abbreviation max_attempts := (retry_get_record_on_not_found_attempts self).
Abbreviation call :=
  (_call_filemaker_async json json_loads http application_error authorization
     session_invalid authenticate self).
Abbreviation answer := (exchange json json_loads http application_error).
Abbreviation relogin := (_with_auto_relogin session_invalid authenticate).

(** One pass through the relogin wrappers while the session expires: one
    login, two round trips, and the not-found error comes out. *)
Lemma expiring_attempt_outcome {A : Type} (p : payload json) (g : json -> A)
  w e1 new_token e2 :
  expiring_attempt answer session_invalid authenticate NF
    (calls w) (logins w) e1 new_token e2 ->
  exists w1,
    relogin (bind (call p) (fun response => ret (g response))) w = (Raised e2, w1) /\
    calls w1 = S (S (calls w)) /\
    logins w1 = S (logins w) /\
    slept w1 = slept w.
Proof.
  intros (H1 & Hsi1 & Hauth & H2 & Hsi2 & _).
  pose (wa := round_trip (_update_token_header authorization w)).
  pose (wb := mkWorld (Some new_token) (_headers wa) (calls wa) (S (logins wa))
                (slept wa)).
  pose (wc := round_trip (_update_token_header authorization wb)).
  assert (Hca : calls wb = S (calls w))
    by (simpl; now rewrite update_token_header_calls).
  assert (Hla : logins wa = logins w)
    by (simpl; now rewrite update_token_header_logins).
  assert (Hfirst : _call_filemaker_async_body json json_loads http application_error
                     authorization self p w = (Raised e1, wa))
    by (rewrite call_body_exchange, H1; reflexivity).
  assert (Hsecond : _call_filemaker_async_body json json_loads http application_error
                      authorization self p wb = (Raised e2, wc))
    by (rewrite call_body_exchange, Hca, H2; reflexivity).
  assert (Hcall : call p w = (Raised e2, wc)).
  { unfold _call_filemaker_async.
    rewrite (relogin_session_invalid session_invalid authenticate _ w e1 wa new_token
               Hfirst Hsi1).
    - exact Hsecond.
    - rewrite Hla. exact Hauth. }
  exists wc. split; [|split; [|split]].
  - apply relogin_other_error; [|exact Hsi2].
    unfold bind. rewrite Hcall. reflexivity.
  - unfold wc. simpl. rewrite update_token_header_calls. simpl.
    rewrite ?update_token_header_calls. reflexivity.
  - unfold wc. simpl. rewrite update_token_header_logins. simpl.
    rewrite ?update_token_header_logins. reflexivity.
  - unfold wc. simpl. rewrite update_token_header_slept. simpl.
    rewrite ?update_token_header_slept. reflexivity.
Qed.

(** [n] such attempts in a row make a run of [n] recognised failures with
    [n] logins and [2 * n] round trips. *)
Lemma expiring_attempts_run {A : Type} (p : payload json) (g : json -> A) n :
  forall w err (firsts : nat -> exn) (tokens : nat -> string) (errs : nat -> exn),
    (forall i, (i < n)%nat ->
       expiring_attempt answer session_invalid authenticate NF
         (calls w + 2 * i)%nat (logins w + i)%nat (firsts i) (tokens i) (errs i)) ->
    exists w',
      not_found_run NF delay
        (relogin (bind (call p) (fun response => ret (g response))))
        n w err w' (last_error errs n err) /\
      calls w' = (calls w + 2 * n)%nat /\
      logins w' = (logins w + n)%nat /\
      slept w' = slept w ++ repeat delay n.
Proof.
  induction n as [|n IH]; intros w err firsts tokens errs H.
  - exists w. simpl. rewrite app_nil_r.
    repeat split; try lia. constructor.
  - assert (H0 := H 0%nat ltac:(lia)).
    rewrite Nat.mul_0_r, !Nat.add_0_r in H0.
    destruct (expiring_attempt_outcome p g w _ _ _ H0) as (w1 & Hop & Hc & Hl & Hs).
    destruct (IH (time_sleep delay w1) (Some (errs 0%nat))
                (fun i => firsts (S i)) (fun i => tokens (S i)) (fun i => errs (S i)))
      as (w' & Hrun & Hc' & Hl' & Hs').
    { intros i Hi. simpl calls. simpl logins. rewrite Hc, Hl.
      replace (S (S (calls w)) + 2 * i)%nat with (calls w + 2 * S i)%nat by lia.
      replace (S (logins w) + i)%nat with (logins w + S i)%nat by lia.
      apply H. lia. }
    exists w'. split; [|split; [|split]].
    + apply run_again with (e := errs 0%nat) (w1 := w1).
      * exact Hop.
      * apply H0.
      * replace (last_error errs (S n) err)
          with (last_error (fun i => errs (S i)) n (Some (errs 0%nat)))
          by (destruct n; reflexivity).
        exact Hrun.
    + rewrite Hc'. simpl calls. rewrite Hc. lia.
    + rewrite Hl'. simpl logins. rewrite Hl. lia.
    + rewrite Hs'. simpl slept. rewrite Hs, <- app_assoc. reflexivity.
Qed.

End ReadOperationFacts.

(** * Further facts *)

(** ** The retry loop on any operation *)

Section RetryLoopInvariants.

Context {A : Type}.
Variable NF : list string.
Variable self : Server.
Variable f : coroutine A.

Abbreviation max_attempts := (retry_get_record_on_not_found_attempts self).
Abbreviation delay := (retry_get_record_on_not_found_delay self).

(** Once an attempt is allowed or an error is recorded, the loop ends with
    an awaited result or an error. *)
Lemma retry_loop_settled n :
  forall attempted err w,
    (Z.to_nat (max_attempts + 1 - attempted) <= n)%nat ->
    attempted <= max_attempts \/ err <> None ->
    settled (fst (retry_loop NF self f attempted err w)) = true.
Proof.
  induction n as [|n IH]; intros attempted err w Hn Hpre;
    rewrite retry_loop_eq;
    destruct (Z.leb_spec attempted max_attempts) as [Hle|Hgt]; try lia.
  - destruct err as [e|]; [reflexivity|]. destruct Hpre; [lia|congruence].
  - destruct (f w) as [[r|e] w1]; [reflexivity|].
    destruct (is_FileMakerError e); [|reflexivity].
    destruct (in_not_found_errors NF (str e)); [|reflexivity].
    simpl negb. cbv iota. apply IH; [lia|right; discriminate].
  - destruct err as [e|]; [reflexivity|]. destruct Hpre; [lia|congruence].
Qed.

(** What the operation and the sleep both keep, the loop keeps. *)
Lemma retry_loop_keeps (I : world -> Prop) n :
  (forall w o w', I w -> f w = (o, w') -> I w') ->
  (forall w, I w -> I (time_sleep delay w)) ->
  forall attempted err w,
    (Z.to_nat (max_attempts + 1 - attempted) <= n)%nat ->
    I w ->
    I (snd (retry_loop NF self f attempted err w)).
Proof.
  intros Hf Hsleep.
  induction n as [|n IH]; intros attempted err w Hn Hw;
    rewrite retry_loop_eq;
    destruct (Z.leb_spec attempted max_attempts) as [Hle|Hgt]; try lia.
  - destruct err; exact Hw.
  - destruct (f w) as [[r|e] w1] eqn:Hfw.
    + exact (Hf _ _ _ Hw Hfw).
    + assert (Hw1 : I w1) by exact (Hf _ _ _ Hw Hfw).
      destruct (is_FileMakerError e); [|exact Hw1].
      destruct (in_not_found_errors NF (str e)); [|exact Hw1].
      simpl negb. cbv iota. apply IH; [lia|]. apply Hsleep. exact Hw1.
  - destruct err; exact Hw.
Qed.

End RetryLoopInvariants.

(** X1.  With retry enabled and a negative [max_attempts], the wrapper
    does not run the operation at all and returns [None]. *)
Theorem retry_negative_bound_returns_none :
  forall (A : Type) (NF : list string) (self : Server) (f : coroutine A)
         (w : world),
    retry_get_record_on_not_found self = true ->
    retry_get_record_on_not_found_attempts self < 0 ->
    _with_retry_get_resource NF self f w = (Returned PyNone, w).
Proof.
  intros A NF self f w Hen Hneg.
  unfold _with_retry_get_resource. rewrite Hen. simpl.
  rewrite retry_loop_eq.
  destruct (Z.leb_spec 0 (retry_get_record_on_not_found_attempts self)); [lia|].
  reflexivity.
Qed.

Lemma retry_negative_bound_returns_none_witness :
  _with_retry_get_resource NOT_FOUND_SAMPLE negative_client
    (scripted always_seven) fresh_world
  = (Returned PyNone, fresh_world).
Proof.
  apply (retry_negative_bound_returns_none nat NOT_FOUND_SAMPLE negative_client
           (scripted always_seven) fresh_world).
  - reflexivity.
  - reflexivity.
Defined.

(** X2.  With retry enabled and [0 <= max_attempts], whatever the
    operation does, the wrapper ends with an awaited result or with an
    error: it returns neither [None] nor a coroutine object. *)
Theorem retry_enabled_settles :
  forall (A : Type) (NF : list string) (self : Server) (f : coroutine A)
         (w : world),
    retry_get_record_on_not_found self = true ->
    0 <= retry_get_record_on_not_found_attempts self ->
    settled (fst (_with_retry_get_resource NF self f w)) = true.
Proof.
  intros A NF self f w Hen Hmax.
  unfold _with_retry_get_resource. rewrite Hen. simpl.
  apply (retry_loop_settled NF self f
           (Z.to_nat (retry_get_record_on_not_found_attempts self + 1 - 0)));
    [lia | left; exact Hmax].
Qed.

Lemma retry_enabled_settles_witness :
  settled (fst (_with_retry_get_resource NOT_FOUND_SAMPLE retrying_client
                  (scripted never_found) fresh_world)) = true.
Proof.
  apply (retry_enabled_settles nat NOT_FOUND_SAMPLE retrying_client
           (scripted never_found) fresh_world).
  - reflexivity.
  - simpl. lia.
Defined.

(** X3.  The wrapper adds nothing but sleeps to what the operation does:
    a property of the world that every run of the operation keeps and that
    a sleep keeps holds after the wrapper when it held before. *)
Theorem retry_keeps_what_operation_keeps :
  forall (A : Type) (NF : list string) (self : Server) (f : coroutine A)
         (I : world -> Prop) (w : world),
    (forall w1 o w2, I w1 -> f w1 = (o, w2) -> I w2) ->
    (forall w1, I w1 ->
       I (time_sleep (retry_get_record_on_not_found_delay self) w1)) ->
    I w ->
    I (snd (_with_retry_get_resource NF self f w)).
Proof.
  intros A NF self f I w Hf Hsleep Hw.
  unfold _with_retry_get_resource.
  destruct (retry_get_record_on_not_found self); simpl.
  - apply (retry_loop_keeps NF self f I
             (Z.to_nat (retry_get_record_on_not_found_attempts self + 1 - 0)));
      auto.
  - exact Hw.
Qed.

Lemma retry_keeps_what_operation_keeps_witness :
  _token (snd (_with_retry_get_resource NOT_FOUND_SAMPLE retrying_client
                 (scripted never_found) fresh_world)) = Some "t0"
  /\ logins (snd (_with_retry_get_resource NOT_FOUND_SAMPLE retrying_client
                    (scripted never_found) fresh_world)) = 0%nat.
Proof.
  apply (retry_keeps_what_operation_keeps nat NOT_FOUND_SAMPLE retrying_client
           (scripted never_found)
           (fun w => _token w = Some "t0" /\ logins w = 0%nat) fresh_world).
  - intros w1 o w2 Hw1 Hrun. unfold scripted in Hrun.
    inversion Hrun; subst. exact Hw1.
  - intros w1 Hw1. exact Hw1.
  - split; reflexivity.
Defined.

(** ** The retry loop on scripted operations *)

Section RetryLoopCounts.

Context {A : Type}.
Variable NF : list string.
Variable self : Server.
Variable script : nat -> outcome A.

Abbreviation max_attempts := (retry_get_record_on_not_found_attempts self).
Abbreviation delay := (retry_get_record_on_not_found_delay self).

(** The loop makes [c] calls and [j] sleeps of the configured delay, with
    [c] at most the number of attempts left and [j <= c <= j + 1]. *)
Lemma retry_loop_counts n :
  forall attempted err w,
    (Z.to_nat (max_attempts + 1 - attempted) <= n)%nat ->
    exists c j : nat,
      (c <= n)%nat /\ (j <= c)%nat /\ (c <= j + 1)%nat /\
      snd (retry_loop NF self (scripted script) attempted err w) =
      mkWorld (_token w) (_headers w) (calls w + c)%nat (logins w)
        (slept w ++ repeat delay j).
Proof.
  assert (Hnone : forall w : world,
            w = mkWorld (_token w) (_headers w) (calls w + 0)%nat (logins w)
                  (slept w ++ repeat delay 0)).
  { intros [t h c l s]. simpl. rewrite Nat.add_0_r, app_nil_r. reflexivity. }
  assert (Hone : forall w : world,
            round_trip w =
            mkWorld (_token w) (_headers w) (calls w + 1)%nat (logins w)
              (slept w ++ repeat delay 0)).
  { intros [t h c l s]. unfold round_trip. simpl.
    rewrite Nat.add_1_r, app_nil_r. reflexivity. }
  induction n as [|n IH]; intros attempted err w Hn;
    rewrite retry_loop_eq;
    destruct (Z.leb_spec attempted max_attempts) as [Hle|Hgt]; try lia.
  - exists 0%nat, 0%nat. repeat split; try lia.
    destruct err; simpl; apply Hnone.
  - unfold scripted at 1.
    destruct (script (calls w)) as [r|e].
    + exists 1%nat, 0%nat. repeat split; try lia. apply Hone.
    + destruct (is_FileMakerError e);
        [|exists 1%nat, 0%nat; repeat split; try lia; apply Hone].
      destruct (in_not_found_errors NF (str e));
        [|exists 1%nat, 0%nat; repeat split; try lia; apply Hone].
      simpl negb. cbv iota.
      destruct (IH (attempted + 1) (Some e) (time_sleep delay (round_trip w)))
        as (c & j & Hc & Hjc & Hcj & Hw); [lia|].
      exists (S c), (S j). repeat split; try lia.
      rewrite Hw. simpl. rewrite <- app_assoc. simpl. f_equal. lia.
  - exists 0%nat, 0%nat. repeat split; try lia.
    destruct err; simpl; apply Hnone.
Qed.

(** The outcome of the loop is the outcome of the last call made, the one
    before the loop when it makes none. *)
Lemma retry_loop_last_call n :
  forall attempted err w,
    (Z.to_nat (max_attempts + 1 - attempted) <= n)%nat ->
    attempted <= max_attempts + 1 ->
    attempted <= max_attempts \/ err <> None ->
    (forall e, err = Some e ->
       exists c0, calls w = S c0 /\ script c0 = Raised e) ->
    exists c0 : nat,
      calls (snd (retry_loop NF self (scripted script) attempted err w)) = S c0 /\
      (calls w <= S c0)%nat /\
      (attempted <= max_attempts -> (calls w <= c0)%nat) /\
      Z.of_nat c0 < Z.of_nat (calls w) + (max_attempts + 1 - attempted) /\
      hands_on (script c0)
        (fst (retry_loop NF self (scripted script) attempted err w)).
Proof.
  induction n as [|n IH]; intros attempted err w Hn Hbound Hpre Hinv;
    rewrite retry_loop_eq;
    destruct (Z.leb_spec attempted max_attempts) as [Hle|Hgt]; try lia.
  - destruct err as [e|]; [|destruct Hpre; [lia|congruence]].
    destruct (Hinv e eq_refl) as (c0 & Hc0 & Hs).
    exists c0. simpl. repeat split; try lia. exact Hs.
  - change (scripted script w) with (script (calls w), round_trip w).
    destruct (script (calls w)) as [r|e] eqn:Hs.
    + exists (calls w). simpl. repeat split; try lia. exact Hs.
    + destruct (is_FileMakerError e);
        [|exists (calls w); simpl; repeat split; try lia; exact Hs].
      destruct (in_not_found_errors NF (str e));
        [|exists (calls w); simpl; repeat split; try lia; exact Hs].
      simpl negb. cbv iota.
      destruct (IH (attempted + 1) (Some e) (time_sleep delay (round_trip w)))
        as (c0 & Hc0 & Hlow & Hlow' & Hup & Hout); try lia.
      * right; discriminate.
      * intros e' He'. injection He' as <-. exists (calls w). split; [reflexivity|exact Hs].
      * simpl calls in *. exists c0. repeat split; try lia; assumption.
  - destruct err as [e|]; [|destruct Hpre; [lia|congruence]].
    destruct (Hinv e eq_refl) as (c0 & Hc0 & Hs).
    exists c0. simpl. repeat split; try lia. exact Hs.
Qed.

End RetryLoopCounts.

(** X4.  Whatever the operation answers and whether or not retry is
    enabled, the wrapper makes at most [max_attempts + 1] inner calls,
    sleeps only the configured delay, never more often than it called and
    at most once less, and changes nothing else. *)
Theorem retry_calls_and_sleeps_are_bounded :
  forall (A : Type) (NF : list string) (self : Server)
         (script : nat -> outcome A) (w : world),
  exists c j : nat,
    snd (_with_retry_get_resource NF self (scripted script) w) =
    mkWorld (_token w) (_headers w) (calls w + c)%nat (logins w)
      (slept w ++ repeat (retry_get_record_on_not_found_delay self) j) /\
    (c <= Z.to_nat (retry_get_record_on_not_found_attempts self + 1))%nat /\
    (j <= c)%nat /\ (c <= j + 1)%nat.
Proof.
  intros A NF self script w.
  unfold _with_retry_get_resource.
  destruct (retry_get_record_on_not_found self); simpl.
  - destruct (retry_loop_counts NF self script
                (Z.to_nat (retry_get_record_on_not_found_attempts self + 1))
                0 None w) as (c & j & Hc & Hjc & Hcj & Hw); [lia|].
    exists c, j. repeat split; try lia. exact Hw.
  - exists 0%nat, 0%nat. destruct w as [t h c l s]. simpl.
    rewrite Nat.add_0_r, app_nil_r. repeat split; lia.
Qed.

(** X5.  With retry enabled, an error that is not a recognised not-found
    error ends the call at whatever attempt it occurs: after [k]
    recognised failures, if attempt [k + 1] is within the bound and raises
    such an error, the wrapper raises it after exactly [k + 1] calls and
    [k] sleeps; no sleep follows it. *)
Theorem retry_stops_at_first_other_error :
  forall (A : Type) (NF : list string) (self : Server)
         (script : nat -> outcome A) (errs : nat -> exn) (k : nat)
         (w : world) (e : exn),
    retry_get_record_on_not_found self = true ->
    Z.of_nat k <= retry_get_record_on_not_found_attempts self ->
    (forall i, (i < k)%nat ->
       script (calls w + i)%nat = Raised (errs i) /\
       recognised_not_found NF (errs i) = true) ->
    script (calls w + k)%nat = Raised e ->
    recognised_not_found NF e = false ->
    _with_retry_get_resource NF self (scripted script) w =
    (Raised e,
     mkWorld (_token w) (_headers w) (calls w + k + 1)%nat (logins w)
       (slept w ++ repeat (retry_get_record_on_not_found_delay self) k)).
Proof.
  intros A NF self script errs k w e Hen Hle Hfail He Hrec.
  rewrite (retry_scripted_decided NF self script errs k w Hen Hle Hfail), He, Hrec.
  unfold round_trip, after_attempts. simpl. do 2 f_equal. lia.
Qed.

Lemma retry_stops_at_first_other_error_witness :
  _with_retry_get_resource NOT_FOUND_SAMPLE retrying_client
    (scripted (fun k => match k with
                        | 0%nat => @Raised nat missing
                        | _ => Raised (TransportError "Connection reset")
                        end))
    fresh_world
  = (Raised (TransportError "Connection reset"),
     mkWorld (Some "t0") [] 2 0 [0%N]).
Proof.
  apply (retry_stops_at_first_other_error nat NOT_FOUND_SAMPLE retrying_client
           (fun k => match k with
                     | 0%nat => Raised missing
                     | _ => Raised (TransportError "Connection reset")
                     end)
           (fun _ => missing) 1%nat fresh_world
           (TransportError "Connection reset")).
  - reflexivity.
  - simpl. lia.
  - intros [|i] Hi; [split; reflexivity | lia].
  - reflexivity.
  - reflexivity.
Defined.

(** X6.  With retry enabled and [0 <= max_attempts], the wrapper makes at
    least one and at most [max_attempts + 1] inner calls, and what it
    returns or raises is what the last of these calls returned or raised:
    it never makes up a result and never reports an earlier error. *)
Theorem retry_outcome_is_last_call :
  forall (A : Type) (NF : list string) (self : Server)
         (script : nat -> outcome A) (w : world),
    retry_get_record_on_not_found self = true ->
    0 <= retry_get_record_on_not_found_attempts self ->
    exists j : nat,
      Z.of_nat j <= retry_get_record_on_not_found_attempts self /\
      calls (snd (_with_retry_get_resource NF self (scripted script) w))
      = (calls w + j + 1)%nat /\
      hands_on (script (calls w + j)%nat)
        (fst (_with_retry_get_resource NF self (scripted script) w)).
Proof.
  intros A NF self script w Hen Hmax.
  unfold _with_retry_get_resource. rewrite Hen. simpl.
  assert (Hinv : forall e, @None exn = Some e ->
            exists c0, calls w = S c0 /\ script c0 = Raised e)
    by (intros e He; discriminate He).
  destruct (retry_loop_last_call NF self script
              (Z.to_nat (retry_get_record_on_not_found_attempts self + 1))
              0 None w ltac:(lia) ltac:(lia) (or_introl Hmax) Hinv)
    as (c0 & Hc0 & _ & Hlow & Hup & Hout).
  specialize (Hlow Hmax).
  exists (c0 - calls w)%nat.
  replace (calls w + (c0 - calls w))%nat with c0 by lia.
  repeat split; try lia. exact Hout.
Qed.

Lemma retry_outcome_is_last_call_witness :
  exists j : nat,
    Z.of_nat j <= 2 /\
    calls (snd (_with_retry_get_resource NOT_FOUND_SAMPLE retrying_client
                  (scripted third_time_lucky) fresh_world))
    = (0 + j + 1)%nat /\
    hands_on (third_time_lucky (0 + j)%nat)
      (fst (_with_retry_get_resource NOT_FOUND_SAMPLE retrying_client
              (scripted third_time_lucky) fresh_world)).
Proof.
  apply (retry_outcome_is_last_call nat NOT_FOUND_SAMPLE retrying_client
           third_time_lucky fresh_world).
  - reflexivity.
  - simpl. lia.
Defined.

(** ** More attempts *)

(** A loop that ends with a result ends with the same result when more
    attempts are allowed. *)
Lemma retry_loop_more_attempts {A : Type} (NF : list string) (self : Server)
  (f : coroutine A) (m m' : Z) n :
  m <= m' ->
  forall attempted err w r w',
    (Z.to_nat (m + 1 - attempted) <= n)%nat ->
    retry_loop NF (with_attempts self m) f attempted err w = (Returned (Value r), w') ->
    retry_loop NF (with_attempts self m') f attempted err w = (Returned (Value r), w').
Proof.
  intros Hmm.
  induction n as [|n IH]; intros attempted err w r w' Hn H;
    rewrite retry_loop_eq in H; rewrite retry_loop_eq;
    simpl retry_get_record_on_not_found_attempts in *;
    simpl retry_get_record_on_not_found_delay in *;
    destruct (Z.leb_spec attempted m) as [Hle|Hgt]; try lia.
  - destruct err; discriminate H.
  - replace (Z.leb attempted m') with true by (symmetry; apply Z.leb_le; lia).
    destruct (f w) as [[r1|e] w1]; [exact H|].
    destruct (is_FileMakerError e); [|exact H].
    destruct (in_not_found_errors NF (str e)); [|exact H].
    simpl negb in *. cbv iota in *.
    apply IH; [lia|exact H].
  - destruct err; discriminate H.
Qed.

(** X7.  Allowing more attempts never changes a call that returned a
    result: if the wrapper returns [r] with the bound [m], it returns [r]
    and leaves the same world with any bound [m' >= m]. *)
Theorem retry_success_survives_more_attempts :
  forall (A : Type) (NF : list string) (self : Server) (f : coroutine A)
         (m m' : Z) (w : world) (r : A) (w' : world),
    m <= m' ->
    _with_retry_get_resource NF (with_attempts self m) f w
    = (Returned (Value r), w') ->
    _with_retry_get_resource NF (with_attempts self m') f w
    = (Returned (Value r), w').
Proof.
  intros A NF self f m m' w r w' Hmm H.
  unfold _with_retry_get_resource in *.
  simpl retry_get_record_on_not_found in *.
  destruct (retry_get_record_on_not_found self); simpl in *.
  - apply (retry_loop_more_attempts NF self f m m' (Z.to_nat (m + 1 - 0)) Hmm);
      [lia|exact H].
  - discriminate H.
Qed.

Lemma retry_success_survives_more_attempts_witness :
  _with_retry_get_resource NOT_FOUND_SAMPLE (with_attempts retrying_client 5)
    (scripted third_time_lucky) fresh_world
  = (Returned (Value 7%nat), mkWorld (Some "t0") [] 3 0 [0%N; 0%N]).
Proof.
  apply (retry_success_survives_more_attempts nat NOT_FOUND_SAMPLE retrying_client
           (scripted third_time_lucky) 2 5 fresh_world 7%nat
           (mkWorld (Some "t0") [] 3 0 [0%N; 0%N])).
  - lia.
  - reflexivity.
Defined.

(** ** The retry decorator of the base class *)

Section BaseRetryFacts.

Context {A : Type}.
Variable NF : list string.
Variable self : Server.
Variable f : coroutine A.

Abbreviation delay := (retry_get_record_on_not_found_delay self).

Lemma retry_attempts_returns n w r w1 :
  f w = (Returned r, w1) ->
  retry_attempts NF self f n w = (Returned r, w1).
Proof. intros H. destruct n; simpl; rewrite H; reflexivity. Qed.

Lemma retry_attempts_other n w e w1 :
  f w = (Raised e, w1) ->
  recognised_not_found NF e = false ->
  retry_attempts NF self f n w = (Raised e, w1).
Proof. intros H Hrec. destruct n; simpl; rewrite H, Hrec; reflexivity. Qed.

Lemma retry_attempts_again n w e w1 :
  f w = (Raised e, w1) ->
  recognised_not_found NF e = true ->
  retry_attempts NF self f (S n) w =
  retry_attempts NF self f n (time_sleep delay w1).
Proof. intros H Hrec. simpl. rewrite H, Hrec. reflexivity. Qed.

(** A run of [k] recognised failures uses up [k] attempts. *)
Lemma retry_attempts_run k :
  forall w err w' err' m,
    not_found_run NF delay f k w err w' err' ->
    retry_attempts NF self f (k + m) w = retry_attempts NF self f m w'.
Proof.
  induction k as [|k IH]; intros w err w' err' m Hrun.
  - inversion Hrun; subst. reflexivity.
  - inversion Hrun as [|k0 w2 err2 e w1 w3 err3 Hf Hrec Hrest]; subst.
    change (S k + m)%nat with (S (k + m)).
    rewrite (retry_attempts_again _ _ _ _ Hf Hrec).
    exact (IH _ _ _ _ m Hrest).
Qed.

(** A run of recognised failures as long as the attempts allowed ends
    with the last error of the run. *)
Lemma retry_attempts_exhausted n :
  forall w err w' e,
    not_found_run NF delay f (S n) w err w' (Some e) ->
    retry_attempts NF self f n w = (Raised e, w').
Proof.
  induction n as [|n IH]; intros w err w' e Hrun;
    inversion Hrun as [|k0 w2 err2 e0 w1 w3 err3 Hf Hrec Hrest]; subst.
  - inversion Hrest; subst. simpl. rewrite Hf, Hrec. reflexivity.
  - rewrite (retry_attempts_again _ _ _ _ Hf Hrec).
    exact (IH _ _ _ _ Hrest).
Qed.

End BaseRetryFacts.

(** ** The operations over the transport *)

Section OperationFacts.

Variable json : Type.
Variable json_loads : string -> JSONDecodeError + json.
Variable http : request json -> nat -> string + string.
Variable application_error : json -> option (Z * string).
Variable authorization : string -> string.
Variable NF : list string.
Variable session_invalid : Z -> string -> bool.
Variable authenticate : nat -> outcome string.
Variable self : Server.

Abbreviation delay := (retry_get_record_on_not_found_delay self).
Abbreviation max_attempts := (retry_get_record_on_not_found_attempts self).
Abbreviation call_body :=
  (_call_filemaker_async_body json json_loads http application_error authorization self).
Abbreviation call :=
  (_call_filemaker_async json json_loads http application_error authorization
     session_invalid authenticate self).
Abbreviation update := (_update_token_header authorization).
Abbreviation sent := (outgoing_request json authorization self).
Abbreviation answer := (exchange json json_loads http application_error).
Abbreviation relogin := (_with_auto_relogin session_invalid authenticate).
Abbreviation undecorated :=
  (undecorated_operation json json_loads http application_error authorization
     session_invalid authenticate self).
Abbreviation relogin_op :=
  (relogin_operation json json_loads http application_error authorization
     session_invalid authenticate self).
Abbreviation read_op :=
  (read_operation json json_loads http application_error authorization NF
     session_invalid authenticate self).

Lemma update_token_header_token w : _token (update w) = _token w.
Proof. unfold _update_token_header. destruct (_token w); reflexivity. Qed.

Lemma call_returns (p : payload json) w d :
  answer (sent p w) (calls w) = Returned d ->
  call p w = (Returned d, round_trip (update w)).
Proof.
  intros H. unfold _call_filemaker_async.
  apply relogin_success. rewrite call_body_exchange, H. reflexivity.
Qed.

Lemma call_raises (p : payload json) w e :
  answer (sent p w) (calls w) = Raised e ->
  is_session_invalid session_invalid e = false ->
  call p w = (Raised e, round_trip (update w)).
Proof.
  intros H Hsi. unfold _call_filemaker_async.
  apply relogin_other_error; [|exact Hsi].
  rewrite call_body_exchange, H. reflexivity.
Qed.

(** A refused round trip, a login and the round trip after it. *)
Lemma call_relogin (p : payload json) w e1 new_token (o2 : outcome json) :
  (forall rq, answer rq (calls w) = Raised e1) ->
  is_session_invalid session_invalid e1 = true ->
  authenticate (logins w) = Returned new_token ->
  (forall rq, answer rq (S (calls w)) = o2) ->
  exists w1,
    call p w = (o2, w1) /\
    calls w1 = S (S (calls w)) /\
    logins w1 = S (logins w) /\
    slept w1 = slept w /\
    _token w1 = Some new_token.
Proof.
  intros H1 Hsi1 Hauth H2.
  pose (wa := round_trip (update w)).
  pose (wb := mkWorld (Some new_token) (_headers wa) (calls wa) (S (logins wa))
                (slept wa)).
  pose (wc := round_trip (update wb)).
  assert (Hca : calls wb = S (calls w))
    by (simpl; now rewrite update_token_header_calls).
  assert (Hla : logins wa = logins w)
    by (simpl; now rewrite update_token_header_logins).
  assert (Hfirst : call_body p w = (Raised e1, wa))
    by (rewrite call_body_exchange, H1; reflexivity).
  assert (Hsecond : call_body p wb = (o2, wc))
    by (rewrite call_body_exchange, Hca, H2; reflexivity).
  exists wc. split; [|split; [|split; [|split]]].
  - unfold _call_filemaker_async.
    rewrite (relogin_session_invalid session_invalid authenticate _ w e1 wa new_token
               Hfirst Hsi1).
    + exact Hsecond.
    + rewrite Hla. exact Hauth.
  - unfold wc. simpl. rewrite update_token_header_calls. simpl.
    rewrite ?update_token_header_calls. reflexivity.
  - unfold wc. simpl. rewrite update_token_header_logins. simpl.
    rewrite ?update_token_header_logins. reflexivity.
  - unfold wc. simpl. rewrite update_token_header_slept. simpl.
    rewrite ?update_token_header_slept. reflexivity.
  - unfold wc. simpl. rewrite ?update_token_header_token. reflexivity.
Qed.

(** X8.  An error of the undecorated remote-call function tells what went
    wrong in its one round trip: a transport error means the transport
    failed, with that detail; [BadJSON] means a body arrived that does not
    decode, and it holds that very body and the decode failure; a
    [FileMakerError] means a body arrived and decoded to a response that
    indicates this code and message. *)
Theorem remote_call_error_tells_the_cause :
  forall (p : payload json) (w : world) (e : exn) (w' : world),
    call_body p w = (Raised e, w') ->
    w' = round_trip (update w) /\
    match e with
    | TransportError detail => http (sent p w) (calls w) = inl detail
    | BadJSON ex response_text =>
        http (sent p w) (calls w) = inr response_text /\
        json_loads response_text = inl ex
    | FileMakerError code message =>
        exists response_text response_data,
          http (sent p w) (calls w) = inr response_text /\
          json_loads response_text = inr response_data /\
          application_error response_data = Some (code, message)
    end.
Proof.
  intros p w e w' H.
  rewrite call_body_exchange in H. unfold exchange in H.
  destruct (http (sent p w) (calls w)) as [detail|response_text] eqn:Hhttp.
  - injection H as <- <-. split; reflexivity.
  - destruct (json_loads response_text) as [ex|response_data] eqn:Hloads.
    + injection H as <- <-. split; [reflexivity|split; [reflexivity|exact Hloads]].
    + destruct (application_error response_data) as [[code message]|] eqn:Happ;
        [|discriminate H].
      injection H as <- <-. split; [reflexivity|].
      exists response_text, response_data. repeat split; assumption.
Qed.

(** X10.  An operation without the retry decorator whose round trip brings
    a decoded success response returns the mapped response after that
    single round trip, with or without the relogin decorator. *)
Theorem write_operation_success_is_one_round_trip :
  forall (A : Type) (p : payload json) (prepare_result : json -> A)
         (w : world) (response_data : json),
    answer (sent p w) (calls w) = Returned response_data ->
    undecorated p prepare_result w =
    (Returned (prepare_result response_data), round_trip (update w))
    /\
    relogin_op p prepare_result w =
    (Returned (prepare_result response_data), round_trip (update w)).
Proof.
  intros A p g w d H.
  assert (Hbody : undecorated p g w = (Returned (g d), round_trip (update w))).
  { unfold undecorated_operation, bind. rewrite (call_returns p w d H). reflexivity. }
  split; [exact Hbody|].
  unfold relogin_operation. apply relogin_success. exact Hbody.
Qed.

(** X11.  The operations without the retry decorator are not retried,
    whatever the retry settings of the client: a failure of the round trip
    that is not session-invalid, a not-found error included, is raised
    after that single round trip, with no sleep and no login. *)
Theorem write_operation_failure_is_not_retried :
  forall (A : Type) (p : payload json) (prepare_result : json -> A)
         (w : world) (e : exn),
    answer (sent p w) (calls w) = Raised e ->
    is_session_invalid session_invalid e = false ->
    undecorated p prepare_result w = (Raised e, round_trip (update w))
    /\
    relogin_op p prepare_result w = (Raised e, round_trip (update w)).
Proof.
  intros A p g w e H Hsi.
  assert (Hbody : undecorated p g w = (Raised e, round_trip (update w))).
  { unfold undecorated_operation, bind. rewrite (call_raises p w e H Hsi).
    reflexivity. }
  split; [exact Hbody|].
  unfold relogin_operation. apply relogin_other_error; assumption.
Qed.

(** One attempt of a relogin-decorated body that fails with an error that
    is not session-invalid. *)
Lemma relogin_op_raises {A : Type} (p : payload json) (g : json -> A) w e :
  answer (sent p w) (calls w) = Raised e ->
  is_session_invalid session_invalid e = false ->
  relogin_op p g w = (Raised e, round_trip (update w)).
Proof.
  intros H Hsi. unfold relogin_operation.
  apply relogin_other_error; [|exact Hsi].
  unfold undecorated_operation, bind. rewrite (call_raises p w e H Hsi).
  reflexivity.
Qed.

(** The undecorated body when the session is refused twice. *)
Lemma undecorated_relogin_raises {A : Type} (p : payload json) (g : json -> A)
  w e1 new_token e2 :
  (forall rq, answer rq (calls w) = Raised e1) ->
  is_session_invalid session_invalid e1 = true ->
  authenticate (logins w) = Returned new_token ->
  (forall rq, answer rq (S (calls w)) = Raised e2) ->
  exists w1,
    undecorated p g w = (Raised e2, w1) /\
    calls w1 = S (S (calls w)) /\
    logins w1 = S (logins w) /\
    slept w1 = slept w /\
    _token w1 = Some new_token.
Proof.
  intros H1 Hsi1 Hauth H2.
  destruct (call_relogin p w e1 new_token (Raised e2) H1 Hsi1 Hauth H2)
    as (w1 & Hcall & Hrest).
  exists w1. split; [|exact Hrest].
  unfold undecorated_operation, bind. rewrite Hcall. reflexivity.
Qed.

(** X14.  When the remote system keeps refusing the session and every
    login succeeds: an operation without decorator gives up after one login
    and two round trips, through the relogin decorator of
    [_call_filemaker_async]; an operation that carries the relogin
    decorator itself goes through both wrappers and gives up only after
    three logins and four round trips.  Either raises the error of its
    last round trip and keeps the last token. *)
Theorem persistent_session_refusal :
  forall (A : Type) (p : payload json) (prepare_result : json -> A)
         (w : world) (errs : nat -> exn) (tokens : nat -> string),
    (forall i, (i < 4)%nat ->
       (forall rq, answer rq (calls w + i)%nat = Raised (errs i)) /\
       is_session_invalid session_invalid (errs i) = true) ->
    (forall i, (i < 3)%nat ->
       authenticate (logins w + i)%nat = Returned (tokens i)) ->
    (fst (undecorated p prepare_result w) = Raised (errs 1%nat) /\
     calls (snd (undecorated p prepare_result w)) = (calls w + 2)%nat /\
     logins (snd (undecorated p prepare_result w)) = (logins w + 1)%nat /\
     _token (snd (undecorated p prepare_result w)) = Some (tokens 0%nat))
    /\
    (fst (relogin_op p prepare_result w) = Raised (errs 3%nat) /\
     calls (snd (relogin_op p prepare_result w)) = (calls w + 4)%nat /\
     logins (snd (relogin_op p prepare_result w)) = (logins w + 3)%nat /\
     _token (snd (relogin_op p prepare_result w)) = Some (tokens 2%nat)).
Proof.
  intros A p g w errs tokens Herr Hauth.
  destruct (Herr 0%nat ltac:(lia)) as (H0 & Hsi0).
  destruct (Herr 1%nat ltac:(lia)) as (H1 & Hsi1).
  destruct (Herr 2%nat ltac:(lia)) as (H2 & Hsi2).
  destruct (Herr 3%nat ltac:(lia)) as (H3 & _).
  assert (Ha0 := Hauth 0%nat ltac:(lia)).
  assert (Ha1 := Hauth 1%nat ltac:(lia)).
  assert (Ha2 := Hauth 2%nat ltac:(lia)).
  rewrite Nat.add_0_r in H0, Ha0.
  rewrite Nat.add_1_r in H1.
  destruct (undecorated_relogin_raises p g w (errs 0%nat) (tokens 0%nat)
              (errs 1%nat) H0 Hsi0 Ha0 H1)
    as (w1 & Hfirst & Hc1 & Hl1 & Hs1 & Ht1).
  split.
  - rewrite Hfirst. simpl. repeat split; try lia; assumption.
  - pose (w2 := mkWorld (Some (tokens 1%nat)) (_headers w1) (calls w1)
                  (S (logins w1)) (slept w1)).
    destruct (undecorated_relogin_raises p g w2 (errs 2%nat) (tokens 2%nat)
                (errs 3%nat))
      as (w3 & Hsecond & Hc3 & Hl3 & Hs3 & Ht3).
    + intros rq. simpl calls. rewrite Hc1.
      replace (S (S (calls w))) with (calls w + 2)%nat by lia. apply H2.
    + exact Hsi2.
    + simpl logins. rewrite Hl1.
      replace (S (S (logins w))) with (logins w + 2)%nat by lia. exact Ha2.
    + intros rq. simpl calls. rewrite Hc1.
      replace (S (S (S (calls w)))) with (calls w + 3)%nat by lia. apply H3.
    + assert (Hres : relogin_op p g w = (Raised (errs 3%nat), w3)).
      { unfold relogin_operation.
        rewrite (relogin_session_invalid session_invalid authenticate _ w
                   (errs 1%nat) w1 (tokens 1%nat) Hfirst Hsi1).
        - exact Hsecond.
        - rewrite Hl1. rewrite Nat.add_1_r in Ha1. exact Ha1. }
      rewrite Hres. simpl. simpl in Hc3, Hl3.
      repeat split; try lia; assumption.
Qed.

Lemma after_round_trip w :
  calls (round_trip (update w)) = S (calls w) /\
  slept (round_trip (update w)) = slept w /\
  logins (round_trip (update w)) = logins w.
Proof.
  simpl.
  rewrite update_token_header_calls, update_token_header_slept,
    update_token_header_logins.
  repeat split.
Qed.

Lemma relogin_op_returns {A : Type} (p : payload json) (g : json -> A) w d :
  answer (sent p w) (calls w) = Returned d ->
  relogin_op p g w = (Returned (g d), round_trip (update w)).
Proof.
  intros H. unfold relogin_operation. apply relogin_success.
  unfold undecorated_operation, bind. rewrite (call_returns p w d H).
  reflexivity.
Qed.

(** X9.  A read operation (with the base-class decorators as the
    specification describes them) whose round trip brings a decodable
    success response returns its [prepare_result] of the decoded response
    after that single round trip, whatever the retry settings. *)
Theorem read_operation_success_is_one_round_trip :
  forall (A : Type) (p : payload json) (prepare_result : json -> A)
         (w : world) (response_data : json),
    answer (sent p w) (calls w) = Returned response_data ->
    read_op p prepare_result w =
    (Returned (prepare_result response_data), round_trip (update w)).
Proof.
  intros A p g w d H.
  change (read_op p g w)
    with (Server_with_retry_get_resource NF self (relogin_op p g) w).
  unfold Server_with_retry_get_resource.
  destruct (retry_get_record_on_not_found self).
  - apply retry_attempts_returns. exact (relogin_op_returns p g w d H).
  - exact (relogin_op_returns p g w d H).
Qed.

(** X12.  A read operation (with the base-class decorators as the
    specification describes them) whose first round trip fails with an
    error that is neither session-invalid nor a recognised not-found error
    raises it after that single round trip, whatever the retry settings. *)
Theorem read_operation_other_failure_is_not_retried :
  forall (A : Type) (p : payload json) (prepare_result : json -> A)
         (w : world) (e : exn),
    answer (sent p w) (calls w) = Raised e ->
    is_session_invalid session_invalid e = false ->
    recognised_not_found NF e = false ->
    read_op p prepare_result w = (Raised e, round_trip (update w)).
Proof.
  intros A p g w e H Hsi Hrec.
  change (read_op p g w)
    with (Server_with_retry_get_resource NF self (relogin_op p g) w).
  unfold Server_with_retry_get_resource.
  destruct (retry_get_record_on_not_found self).
  - apply retry_attempts_other; [|exact Hrec].
    exact (relogin_op_raises p g w e H Hsi).
  - exact (relogin_op_raises p g w e H Hsi).
Qed.

(** A read operation that finds the record at the second attempt. *)
Lemma read_op_retried_once {A : Type} (p : payload json) (g : json -> A) w e d :
  retry_get_record_on_not_found self = true ->
  1 <= max_attempts ->
  (forall rq, answer rq (calls w) = Raised e) ->
  recognised_not_found NF e = true ->
  is_session_invalid session_invalid e = false ->
  (forall rq, answer rq (S (calls w)) = Returned d) ->
  retried_once delay w (g d) (read_op p g w).
Proof.
  intros Hen Hmax H1 Hrec Hsi H2.
  destruct (after_round_trip w) as (Hc1 & Hs1 & Hl1).
  assert (Hop1 := relogin_op_raises p g w e (H1 _) Hsi).
  remember (round_trip (update w)) as w1 eqn:Hw1. clear Hw1.
  destruct (after_round_trip (time_sleep delay w1)) as (Hc3 & Hs3 & Hl3).
  assert (Hres : read_op p g w =
                 (Returned (g d), round_trip (update (time_sleep delay w1)))).
  { change (read_op p g w)
      with (Server_with_retry_get_resource NF self (relogin_op p g) w).
    unfold Server_with_retry_get_resource. rewrite Hen.
    replace (Z.to_nat max_attempts) with (S (Z.to_nat (max_attempts - 1))) by lia.
    rewrite (retry_attempts_again NF self (relogin_op p g) _ w e w1 Hop1 Hrec).
    apply retry_attempts_returns.
    apply relogin_op_returns. simpl calls. rewrite Hc1. apply H2. }
  unfold retried_once. rewrite Hres. simpl fst. simpl snd.
  rewrite Hc3, Hs3, Hl3. simpl. rewrite Hc1, Hs1, Hl1.
  repeat split.
Qed.

(** An operation without the retry decorator on a missing record. *)
Lemma undecorated_raised_at_once {A : Type} (p : payload json) (g : json -> A) w e :
  (forall rq, answer rq (calls w) = Raised e) ->
  is_session_invalid session_invalid e = false ->
  raised_at_once w e (undecorated p g w).
Proof.
  intros H Hsi. unfold raised_at_once.
  replace (undecorated p g w) with (@Raised A e, round_trip (update w)).
  - simpl fst. simpl snd. destruct (after_round_trip w) as (Hc & Hs & Hl).
    repeat split; assumption.
  - unfold undecorated_operation, bind.
    rewrite (call_raises p w e (H _) Hsi). reflexivity.
Qed.

Lemma relogin_op_raised_at_once {A : Type} (p : payload json) (g : json -> A) w e :
  (forall rq, answer rq (calls w) = Raised e) ->
  is_session_invalid session_invalid e = false ->
  raised_at_once w e (relogin_op p g w).
Proof.
  intros H Hsi. unfold raised_at_once.
  rewrite (relogin_op_raises p g w e (H _) Hsi).
  simpl fst. simpl snd. destruct (after_round_trip w) as (Hc & Hs & Hl).
  repeat split; assumption.
Qed.

(** C5.  The retry decorator is applied to the three read operations and
    to none of the other operations.  On a client with retry enabled and
    [1 <= max_attempts], when the first round trip fails with a recognised
    not-found error and the next one succeeds: [get_record_async],
    [get_records_async] and [find_async] are retried and return the mapped
    response after two round trips and one sleep; [create_record_async],
    [edit_record_async], [delete_record_async], [perform_script_async],
    [fetch_file_async] and [set_globals_async] raise the not-found error
    after their first round trip, without sleeping. *)
Theorem retry_applies_to_reads_and_not_to_writes :
  forall (Record_ Foundset RecordId Done ScriptResult File Globals : Type)
         (get_record_prepare_result : json -> Record_)
         (get_records_prepare_result : json -> string -> Foundset)
         (find_prepare_result : string -> json -> Foundset)
         (create_record_prepare_result : json -> RecordId)
         (edit_record_prepare_result delete_record_prepare_response
            set_globals_prepare_result : Done)
         (perform_script_prepare_result : json -> ScriptResult)
         (fetch_file_prepare_result : string -> string -> json -> File)
         (set_globals : Globals -> coroutine (payload json))
         (p : payload json) (layout file_url : string) (globals_ : Globals)
         (w : world) (e : exn) (response_data : json),
    retry_get_record_on_not_found self = true ->
    1 <= max_attempts ->
    (forall rq, answer rq (calls w) = Raised e) ->
    recognised_not_found NF e = true ->
    is_session_invalid session_invalid e = false ->
    (forall rq, answer rq (S (calls w)) = Returned response_data) ->
    set_globals globals_ w = (Returned p, w) ->
    retried_once delay w (get_record_prepare_result response_data)
      (get_record_async json json_loads http application_error authorization NF
         session_invalid authenticate self Record_ get_record_prepare_result p w)
    /\
    retried_once delay w (get_records_prepare_result response_data layout)
      (get_records_async json json_loads http application_error authorization NF
         session_invalid authenticate self Foundset get_records_prepare_result
         layout p w)
    /\
    retried_once delay w (find_prepare_result layout response_data)
      (find_async json json_loads http application_error authorization NF
         session_invalid authenticate self Foundset find_prepare_result layout p w)
    /\
    raised_at_once w e
      (create_record_async json json_loads http application_error authorization
         session_invalid authenticate self RecordId create_record_prepare_result
         p w)
    /\
    raised_at_once w e
      (edit_record_async json json_loads http application_error authorization
         session_invalid authenticate self Done edit_record_prepare_result p w)
    /\
    raised_at_once w e
      (delete_record_async json json_loads http application_error authorization
         session_invalid authenticate self Done delete_record_prepare_response
         p w)
    /\
    raised_at_once w e
      (perform_script_async json json_loads http application_error authorization
         session_invalid authenticate self ScriptResult
         perform_script_prepare_result p w)
    /\
    raised_at_once w e
      (fetch_file_async json json_loads http application_error authorization
         session_invalid authenticate self File fetch_file_prepare_result
         layout file_url p w)
    /\
    raised_at_once w e
      (set_globals_async json json_loads http application_error authorization
         session_invalid authenticate self Done Globals set_globals
         set_globals_prepare_result globals_ w).
Proof.
  intros Record_ Foundset RecordId Done ScriptResult File Globals
    get_record_prepare_result get_records_prepare_result find_prepare_result
    create_record_prepare_result edit_record_prepare_result
    delete_record_prepare_response set_globals_prepare_result
    perform_script_prepare_result fetch_file_prepare_result set_globals
    p layout file_url globals_ w e d Hen Hmax H1 Hrec Hsi H2 Hglobals.
  repeat match goal with |- _ /\ _ => split end.
  - exact (read_op_retried_once p get_record_prepare_result w e d
             Hen Hmax H1 Hrec Hsi H2).
  - exact (read_op_retried_once p
             (fun response => get_records_prepare_result response layout) w e d
             Hen Hmax H1 Hrec Hsi H2).
  - exact (read_op_retried_once p
             (fun response => find_prepare_result layout response) w e d
             Hen Hmax H1 Hrec Hsi H2).
  - exact (undecorated_raised_at_once p create_record_prepare_result w e H1 Hsi).
  - exact (relogin_op_raised_at_once p (fun _ => edit_record_prepare_result)
             w e H1 Hsi).
  - exact (relogin_op_raised_at_once p (fun _ => delete_record_prepare_response)
             w e H1 Hsi).
  - exact (relogin_op_raised_at_once p perform_script_prepare_result w e H1 Hsi).
  - exact (relogin_op_raised_at_once p
             (fun response => fetch_file_prepare_result layout file_url response)
             w e H1 Hsi).
  - unfold raised_at_once.
    replace (set_globals_async json json_loads http application_error
               authorization session_invalid authenticate self Done Globals
               set_globals set_globals_prepare_result globals_ w)
      with (@Raised Done e, round_trip (update w)).
    + simpl fst. simpl snd. destruct (after_round_trip w) as (Hc & Hs & Hl).
      repeat split; assumption.
    + symmetry. unfold set_globals_async.
      apply relogin_other_error; [|exact Hsi].
      unfold bind. rewrite Hglobals, (call_raises p w e (H1 _) Hsi).
      reflexivity.
Qed.

(** One pass through both relogin wrappers while the session is refused
    twice: two logins, three round trips, and the not-found error comes
    out. *)
Lemma twice_refused_attempt_outcome {A : Type} (p : payload json) (g : json -> A)
  w e1 e2 t1 t2 e3 :
  twice_refused_attempt answer session_invalid authenticate NF
    (calls w) (logins w) e1 e2 t1 t2 e3 ->
  exists w3,
    relogin_op p g w = (Raised e3, w3) /\
    calls w3 = S (S (S (calls w))) /\
    logins w3 = S (S (logins w)) /\
    slept w3 = slept w.
Proof.
  intros (H1 & Hsi1 & Ha1 & H2 & Hsi2 & Ha2 & H3 & Hsi3 & _).
  destruct (undecorated_relogin_raises p g w e1 t1 e2 H1 Hsi1 Ha1 H2)
    as (w1 & Hfirst & Hc1 & Hl1 & Hs1 & _).
  rewrite <- Hl1 in Ha2. rewrite <- Hc1 in H3.
  assert (Hrelogin := relogin_session_invalid session_invalid authenticate
                        (undecorated p g) w e2 w1 t2 Hfirst Hsi2 Ha2).
  set (w2 := mkWorld (Some t2) (_headers w1) (calls w1) (S (logins w1)) (slept w1))
    in *.
  assert (Hsecond : undecorated p g w2 = (Raised e3, round_trip (update w2))).
  { unfold undecorated_operation, bind.
    rewrite (call_raises p w2 e3 (H3 _) Hsi3). reflexivity. }
  destruct (after_round_trip w2) as (Hc3 & Hs3 & Hl3).
  exists (round_trip (update w2)). split; [|split; [|split]].
  - unfold relogin_operation. rewrite Hrelogin. exact Hsecond.
  - rewrite Hc3. unfold w2. simpl. rewrite Hc1. reflexivity.
  - rewrite Hl3. unfold w2. simpl. rewrite Hl1. reflexivity.
  - rewrite Hs3. unfold w2. simpl. exact Hs1.
Qed.

(** [n] such attempts in a row make a run of [n] recognised failures with
    [2 * n] logins and [3 * n] round trips. *)
Lemma twice_refused_attempts_run {A : Type} (p : payload json) (g : json -> A) n :
  forall w err (firsts seconds : nat -> exn) (tokens1 tokens2 : nat -> string)
         (errs : nat -> exn),
    (forall i, (i < n)%nat ->
       twice_refused_attempt answer session_invalid authenticate NF
         (calls w + 3 * i)%nat (logins w + 2 * i)%nat
         (firsts i) (seconds i) (tokens1 i) (tokens2 i) (errs i)) ->
    exists w',
      not_found_run NF delay (relogin_op p g) n w err w' (last_error errs n err) /\
      calls w' = (calls w + 3 * n)%nat /\
      logins w' = (logins w + 2 * n)%nat /\
      slept w' = slept w ++ repeat delay n.
Proof.
  induction n as [|n IH]; intros w err firsts seconds tokens1 tokens2 errs H.
  - exists w. simpl. rewrite app_nil_r.
    repeat split; try lia. constructor.
  - assert (H0 := H 0%nat ltac:(lia)).
    rewrite !Nat.mul_0_r, !Nat.add_0_r in H0.
    destruct (twice_refused_attempt_outcome p g w _ _ _ _ _ H0)
      as (w1 & Hop & Hc & Hl & Hs).
    destruct (IH (time_sleep delay w1) (Some (errs 0%nat))
                (fun i => firsts (S i)) (fun i => seconds (S i))
                (fun i => tokens1 (S i)) (fun i => tokens2 (S i))
                (fun i => errs (S i)))
      as (w' & Hrun & Hc' & Hl' & Hs').
    { intros i Hi. simpl calls. simpl logins. rewrite Hc, Hl.
      replace (S (S (S (calls w))) + 3 * i)%nat with (calls w + 3 * S i)%nat by lia.
      replace (S (S (logins w)) + 2 * i)%nat with (logins w + 2 * S i)%nat by lia.
      apply H. lia. }
    exists w'. split; [|split; [|split]].
    + apply run_again with (e := errs 0%nat) (w1 := w1).
      * exact Hop.
      * apply H0.
      * replace (last_error errs (S n) err)
          with (last_error (fun i => errs (S i)) n (Some (errs 0%nat)))
          by (destruct n; reflexivity).
        exact Hrun.
    + rewrite Hc'. simpl calls. rewrite Hc. lia.
    + rewrite Hl'. simpl logins. rewrite Hl. lia.
    + rewrite Hs'. simpl slept. rewrite Hs, <- app_assoc. reflexivity.
Qed.

(** C6.  In a read operation the retry wrapper is the outer one and the
    relogin wrapper the inner one, so every retry attempt goes through the
    relogin wrapper anew.  With retry enabled, over the
    [max_attempts + 1] attempts of one call: when the session expires
    before every attempt and the attempt then fails with a recognised
    not-found error, there is one login per attempt; when the session is
    refused twice in every attempt, the relogin wrapper of
    [_call_filemaker_async] and the relogin wrapper of the read operation
    each log in once per attempt, two logins and three round trips per
    attempt.  Either way the call sleeps once per attempt and ends with
    the last not-found error. *)
Theorem read_operation_relogins_on_every_retry :
  forall (A : Type) (p : payload json) (prepare_result : json -> A) (w : world),
    retry_get_record_on_not_found self = true ->
    (forall (firsts : nat -> exn) (tokens : nat -> string) (errs : nat -> exn),
       (forall i, (i < S (Z.to_nat max_attempts))%nat ->
          expiring_attempt answer session_invalid authenticate NF
            (calls w + 2 * i)%nat (logins w + i)%nat
            (firsts i) (tokens i) (errs i)) ->
       fst (read_op p prepare_result w) = Raised (errs (Z.to_nat max_attempts)) /\
       logins (snd (read_op p prepare_result w))
       = (logins w + S (Z.to_nat max_attempts))%nat /\
       calls (snd (read_op p prepare_result w))
       = (calls w + 2 * S (Z.to_nat max_attempts))%nat /\
       slept (snd (read_op p prepare_result w))
       = slept w ++ repeat delay (S (Z.to_nat max_attempts)))
    /\
    (forall (firsts seconds : nat -> exn) (tokens1 tokens2 : nat -> string)
            (errs : nat -> exn),
       (forall i, (i < S (Z.to_nat max_attempts))%nat ->
          twice_refused_attempt answer session_invalid authenticate NF
            (calls w + 3 * i)%nat (logins w + 2 * i)%nat
            (firsts i) (seconds i) (tokens1 i) (tokens2 i) (errs i)) ->
       fst (read_op p prepare_result w) = Raised (errs (Z.to_nat max_attempts)) /\
       logins (snd (read_op p prepare_result w))
       = (logins w + 2 * S (Z.to_nat max_attempts))%nat /\
       calls (snd (read_op p prepare_result w))
       = (calls w + 3 * S (Z.to_nat max_attempts))%nat /\
       slept (snd (read_op p prepare_result w))
       = slept w ++ repeat delay (S (Z.to_nat max_attempts))).
Proof.
  intros A p g w Hen.
  assert (Hread : forall w' e,
            not_found_run NF delay (relogin_op p g) (S (Z.to_nat max_attempts))
              w None w' (Some e) ->
            read_op p g w = (Raised e, w')).
  { intros w' e Hrun.
    change (read_op p g w)
      with (Server_with_retry_get_resource NF self (relogin_op p g) w).
    unfold Server_with_retry_get_resource. rewrite Hen.
    exact (retry_attempts_exhausted NF self (relogin_op p g) _ w None w' e Hrun). }
  split.
  - intros firsts tokens errs H.
    destruct (expiring_attempts_run json json_loads http application_error
                authorization NF session_invalid authenticate self p g
                (S (Z.to_nat max_attempts)) w None firsts tokens errs H)
      as (w' & Hrun & Hc & Hl & Hs).
    rewrite (Hread w' _ Hrun). simpl fst. simpl snd. auto.
  - intros firsts seconds tokens1 tokens2 errs H.
    destruct (twice_refused_attempts_run p g (S (Z.to_nat max_attempts)) w None
                firsts seconds tokens1 tokens2 errs H)
      as (w' & Hrun & Hc & Hl & Hs).
    rewrite (Hread w' _ Hrun). simpl fst. simpl snd. auto.
Qed.

End OperationFacts.

Lemma remote_call_error_tells_the_cause_witness :
  mkWorld (Some "t0") [("Authorization", "Bearer t0")] 1 0 []
  = round_trip (_update_token_header authorization_sample fresh_world) /\
  (http_html
     (outgoing_request reply authorization_sample retrying_client payload_sample
        fresh_world)
     (calls fresh_world) = inr "<html>" /\
   loads_sample "<html>" = inl (mkJSONDecodeError "Expecting value" "<html>" 0)).
Proof.
  apply (remote_call_error_tells_the_cause reply loads_sample http_html
           application_error_sample authorization_sample retrying_client
           payload_sample fresh_world
           (BadJSON (mkJSONDecodeError "Expecting value" "<html>" 0) "<html>")
           (mkWorld (Some "t0") [("Authorization", "Bearer t0")] 1 0 [])).
  reflexivity.
Defined.

Lemma read_operation_success_is_one_round_trip_witness :
  get_record_async reply loads_sample http_ok application_error_sample
    authorization_sample NOT_FOUND_SAMPLE session_invalid_sample
    authenticate_sample retrying_client reply (fun response => response)
    payload_sample fresh_world
  = (Returned (Reply 0 "OK"),
     round_trip (_update_token_header authorization_sample fresh_world)).
Proof.
  apply (read_operation_success_is_one_round_trip reply loads_sample http_ok
           application_error_sample authorization_sample NOT_FOUND_SAMPLE
           session_invalid_sample authenticate_sample retrying_client reply
           payload_sample (fun response => response) fresh_world (Reply 0 "OK")).
  reflexivity.
Defined.

Lemma read_operation_other_failure_is_not_retried_witness :
  find_async reply loads_sample http_down application_error_sample
    authorization_sample NOT_FOUND_SAMPLE session_invalid_sample
    authenticate_sample retrying_client reply (fun _ response => response)
    "people" payload_sample fresh_world
  = (Raised (TransportError "Connection refused"),
     round_trip (_update_token_header authorization_sample fresh_world)).
Proof.
  apply (read_operation_other_failure_is_not_retried reply loads_sample http_down
           application_error_sample authorization_sample NOT_FOUND_SAMPLE
           session_invalid_sample authenticate_sample retrying_client reply
           payload_sample (fun response => response) fresh_world
           (TransportError "Connection refused")).
  - reflexivity.
  - reflexivity.
  - reflexivity.
Defined.

Lemma retry_applies_to_reads_and_not_to_writes_witness :
  retried_once 0%N fresh_world (Reply 0 "OK")
    (get_record_async reply loads_sample http_missing_once application_error_sample
       authorization_sample NOT_FOUND_SAMPLE session_invalid_sample
       authenticate_sample retrying_client reply (fun response : reply => response)
       payload_sample fresh_world)
  /\
  retried_once 0%N fresh_world (Reply 0 "OK")
    (get_records_async reply loads_sample http_missing_once application_error_sample
       authorization_sample NOT_FOUND_SAMPLE session_invalid_sample
       authenticate_sample retrying_client reply
       (fun (response : reply) (_ : string) => response) "people"
       payload_sample fresh_world)
  /\
  retried_once 0%N fresh_world (Reply 0 "OK")
    (find_async reply loads_sample http_missing_once application_error_sample
       authorization_sample NOT_FOUND_SAMPLE session_invalid_sample
       authenticate_sample retrying_client reply
       (fun (_ : string) (response : reply) => response) "people"
       payload_sample fresh_world)
  /\
  raised_at_once fresh_world missing
    (create_record_async reply loads_sample http_missing_once application_error_sample
       authorization_sample session_invalid_sample authenticate_sample
       retrying_client reply (fun response : reply => response)
       payload_sample fresh_world)
  /\
  raised_at_once fresh_world missing
    (edit_record_async reply loads_sample http_missing_once application_error_sample
       authorization_sample session_invalid_sample authenticate_sample
       retrying_client bool true payload_sample fresh_world)
  /\
  raised_at_once fresh_world missing
    (delete_record_async reply loads_sample http_missing_once application_error_sample
       authorization_sample session_invalid_sample authenticate_sample
       retrying_client bool true payload_sample fresh_world)
  /\
  raised_at_once fresh_world missing
    (perform_script_async reply loads_sample http_missing_once application_error_sample
       authorization_sample session_invalid_sample authenticate_sample
       retrying_client reply (fun response : reply => response)
       payload_sample fresh_world)
  /\
  raised_at_once fresh_world missing
    (fetch_file_async reply loads_sample http_missing_once application_error_sample
       authorization_sample session_invalid_sample authenticate_sample
       retrying_client reply
       (fun (_ _ : string) (response : reply) => response) "people"
       "https://host/file" payload_sample fresh_world)
  /\
  raised_at_once fresh_world missing
    (set_globals_async reply loads_sample http_missing_once application_error_sample
       authorization_sample session_invalid_sample authenticate_sample
       retrying_client bool (list (string * string))
       set_globals_sample true [] fresh_world).
Proof.
  apply (retry_applies_to_reads_and_not_to_writes reply loads_sample
           http_missing_once application_error_sample authorization_sample
           NOT_FOUND_SAMPLE session_invalid_sample authenticate_sample
           retrying_client
           reply reply reply bool reply reply (list (string * string))
           (fun response => response) (fun response _ => response)
           (fun _ response => response) (fun response => response)
           true true true (fun response => response)
           (fun _ _ response => response) set_globals_sample
           payload_sample "people" "https://host/file" [] fresh_world missing
           (Reply 0 "OK")).
  - reflexivity.
  - simpl. lia.
  - intros rq. reflexivity.
  - reflexivity.
  - reflexivity.
  - intros rq. reflexivity.
  - reflexivity.
Defined.

Lemma read_operation_relogins_on_every_retry_witness :
  (fst (get_record_async reply loads_sample http_expiring application_error_sample
       authorization_sample NOT_FOUND_SAMPLE session_invalid_sample
       authenticate_sample retrying_client reply (fun response : reply => response)
       payload_sample fresh_world) = Raised missing /\
   logins (snd (get_record_async reply loads_sample http_expiring application_error_sample
       authorization_sample NOT_FOUND_SAMPLE session_invalid_sample
       authenticate_sample retrying_client reply (fun response : reply => response)
       payload_sample fresh_world)) = 3%nat /\
   calls (snd (get_record_async reply loads_sample http_expiring application_error_sample
       authorization_sample NOT_FOUND_SAMPLE session_invalid_sample
       authenticate_sample retrying_client reply (fun response : reply => response)
       payload_sample fresh_world)) = 6%nat /\
   slept (snd (get_record_async reply loads_sample http_expiring application_error_sample
       authorization_sample NOT_FOUND_SAMPLE session_invalid_sample
       authenticate_sample retrying_client reply (fun response : reply => response)
       payload_sample fresh_world)) = [0%N; 0%N; 0%N])
  /\
  (fst (get_record_async reply loads_sample http_twice_refusing application_error_sample
       authorization_sample NOT_FOUND_SAMPLE session_invalid_sample
       authenticate_sample retrying_client reply (fun response : reply => response)
       payload_sample fresh_world) = Raised missing /\
   logins (snd (get_record_async reply loads_sample http_twice_refusing application_error_sample
       authorization_sample NOT_FOUND_SAMPLE session_invalid_sample
       authenticate_sample retrying_client reply (fun response : reply => response)
       payload_sample fresh_world)) = 6%nat /\
   calls (snd (get_record_async reply loads_sample http_twice_refusing application_error_sample
       authorization_sample NOT_FOUND_SAMPLE session_invalid_sample
       authenticate_sample retrying_client reply (fun response : reply => response)
       payload_sample fresh_world)) = 9%nat /\
   slept (snd (get_record_async reply loads_sample http_twice_refusing application_error_sample
       authorization_sample NOT_FOUND_SAMPLE session_invalid_sample
       authenticate_sample retrying_client reply (fun response : reply => response)
       payload_sample fresh_world)) = [0%N; 0%N; 0%N]).
Proof.
  split.
  - apply (proj1 (read_operation_relogins_on_every_retry reply loads_sample
                    http_expiring application_error_sample authorization_sample
                    NOT_FOUND_SAMPLE session_invalid_sample authenticate_sample
                    retrying_client reply payload_sample
                    (fun response => response) fresh_world eq_refl)
             (fun _ => expired) (fun _ => "t1") (fun _ => missing)).
    intros [|[|[|i]]] Hi; try (simpl in Hi; lia); repeat split.
  - apply (proj2 (read_operation_relogins_on_every_retry reply loads_sample
                    http_twice_refusing application_error_sample
                    authorization_sample NOT_FOUND_SAMPLE session_invalid_sample
                    authenticate_sample retrying_client reply payload_sample
                    (fun response => response) fresh_world eq_refl)
             (fun _ => expired) (fun _ => expired) (fun _ => "t1")
             (fun _ => "t1") (fun _ => missing)).
    intros [|[|[|i]]] Hi; try (simpl in Hi; lia); repeat split.
Defined.

Lemma write_operation_success_is_one_round_trip_witness :
  create_record_async reply loads_sample http_ok application_error_sample
    authorization_sample session_invalid_sample authenticate_sample
    plain_client reply (fun response => response) payload_sample fresh_world
  = (Returned (Reply 0 "OK"),
     round_trip (_update_token_header authorization_sample fresh_world))
  /\
  perform_script_async reply loads_sample http_ok application_error_sample
    authorization_sample session_invalid_sample authenticate_sample
    plain_client reply (fun response => response) payload_sample fresh_world
  = (Returned (Reply 0 "OK"),
     round_trip (_update_token_header authorization_sample fresh_world)).
Proof.
  apply (write_operation_success_is_one_round_trip reply loads_sample http_ok
           application_error_sample authorization_sample session_invalid_sample
           authenticate_sample plain_client reply payload_sample
           (fun response => response) fresh_world (Reply 0 "OK")).
  reflexivity.
Defined.

Lemma write_operation_failure_is_not_retried_witness :
  create_record_async reply loads_sample http_missing application_error_sample
    authorization_sample session_invalid_sample authenticate_sample
    retrying_client reply (fun response => response) payload_sample fresh_world
  = (Raised missing,
     round_trip (_update_token_header authorization_sample fresh_world))
  /\
  edit_record_async reply loads_sample http_missing application_error_sample
    authorization_sample session_invalid_sample authenticate_sample
    retrying_client bool true payload_sample fresh_world
  = (Raised missing,
     round_trip (_update_token_header authorization_sample fresh_world)).
Proof.
  split.
  - apply (write_operation_failure_is_not_retried reply loads_sample http_missing
             application_error_sample authorization_sample session_invalid_sample
             authenticate_sample retrying_client reply payload_sample
             (fun response => response) fresh_world missing);
      reflexivity.
  - apply (write_operation_failure_is_not_retried reply loads_sample http_missing
             application_error_sample authorization_sample session_invalid_sample
             authenticate_sample retrying_client bool payload_sample
             (fun _ => true) fresh_world missing);
      reflexivity.
Defined.

Lemma persistent_session_refusal_witness :
  (fst (create_record_async reply loads_sample http_refusing
          application_error_sample authorization_sample session_invalid_sample
          authenticate_sample plain_client reply (fun response => response)
          payload_sample fresh_world) = Raised expired /\
   calls (snd (create_record_async reply loads_sample http_refusing
                 application_error_sample authorization_sample
                 session_invalid_sample authenticate_sample plain_client reply
                 (fun response => response) payload_sample fresh_world))
   = 2%nat /\
   logins (snd (create_record_async reply loads_sample http_refusing
                  application_error_sample authorization_sample
                  session_invalid_sample authenticate_sample plain_client reply
                  (fun response => response) payload_sample fresh_world))
   = 1%nat /\
   _token (snd (create_record_async reply loads_sample http_refusing
                  application_error_sample authorization_sample
                  session_invalid_sample authenticate_sample plain_client reply
                  (fun response => response) payload_sample fresh_world))
   = Some "t1")
  /\
  (fst (perform_script_async reply loads_sample http_refusing
          application_error_sample authorization_sample session_invalid_sample
          authenticate_sample plain_client reply (fun response => response)
          payload_sample fresh_world) = Raised expired /\
   calls (snd (perform_script_async reply loads_sample http_refusing
                 application_error_sample authorization_sample
                 session_invalid_sample authenticate_sample plain_client reply
                 (fun response => response) payload_sample fresh_world))
   = 4%nat /\
   logins (snd (perform_script_async reply loads_sample http_refusing
                  application_error_sample authorization_sample
                  session_invalid_sample authenticate_sample plain_client reply
                  (fun response => response) payload_sample fresh_world))
   = 3%nat /\
   _token (snd (perform_script_async reply loads_sample http_refusing
                  application_error_sample authorization_sample
                  session_invalid_sample authenticate_sample plain_client reply
                  (fun response => response) payload_sample fresh_world))
   = Some "t1").
Proof.
  apply (persistent_session_refusal reply loads_sample http_refusing
           application_error_sample authorization_sample session_invalid_sample
           authenticate_sample plain_client reply payload_sample
           (fun response => response) fresh_world
           (fun _ => expired) (fun _ => "t1")).
  - intros i _. split; [intros rq|]; reflexivity.
  - intros i _. reflexivity.
Defined.

(** ** [__repr__] *)

Lemma append_closing_inj (d1 d2 : string) :
  (d1 ++ ">")%string = (d2 ++ ">")%string -> d1 = d2.
Proof.
  revert d2. induction d1 as [|c1 d1 IH]; intros [|c2 d2] H; simpl in H.
  - reflexivity.
  - injection H as _ H. destruct d2; discriminate H.
  - injection H as _ H. destruct d1; discriminate H.
  - injection H as Hc H. rewrite Hc, (IH d2 H). reflexivity.
Qed.

(** X15.  The text of [__repr__] tells whether the client holds a
    non-empty token and which database it uses, and nothing else: two
    clients print the same text exactly when they agree on both, so the
    token itself never shows. *)
Theorem repr_tells_login_state_and_database :
  forall (d1 d2 : string) (w1 w2 : world),
    __repr__ d1 w1 = __repr__ d2 w2 <->
    (logged_in w1 = logged_in w2 /\ d1 = d2).
Proof.
  intros d1 d2 w1 w2. unfold __repr__. split.
  - destruct (logged_in w1), (logged_in w2); simpl; intros H;
      try discriminate H;
      inversion H as [H1]; apply append_closing_inj in H1; auto.
  - intros [Hl Hd]. rewrite Hl, Hd. reflexivity.
Qed.
